(** * Loops playground: the lesson interpreter of [src/main.js]

    A shallow embedding of the parsing, sequence derivation, lesson
    building and console templating functions of the loops playground
    and of the handlers of its page, followed by the properties its
    specification states about them and by further properties of the
    code.

    Conventions of the embedding.
    - JavaScript strings are [string]s whose characters are the code
      units 0..255 (ASCII with the Latin-1 block).
    - JavaScript numbers are embedded on their integer fragment as [Z]:
      on integers of magnitude up to 2^53 the source's arithmetic,
      comparisons and decimal printing are exact and coincide with the
      ones on [Z] used here.
    - [{ ok: true, value }] and [{ ok: false, error }] are the two
      constructors of [ParseResult]. *)

From Stdlib Require Import ZArith List Bool Ascii String Lia Arith.
From Stdlib Require Import Numbers.DecimalString.
From Equations Require Import Equations.
Import ListNotations.

Open Scope string_scope.
Open Scope Z_scope.

(** ** Characters and strings *)

Definition code (c : ascii) : nat := nat_of_ascii c.

Definition in_range (lo hi : nat) (c : ascii) : bool :=
  ((lo <=? code c) && (code c <=? hi))%nat.

(** [\d], [[a-zA-Z]] and [\w]. *)
Definition is_digit (c : ascii) : bool := in_range 48 57 c.
Definition is_letter (c : ascii) : bool := in_range 65 90 c || in_range 97 122 c.
Definition is_word (c : ascii) : bool :=
  is_letter c || is_digit c || Ascii.eqb c "_".

(** White space and line terminators, as [\s] and [trim] see them: tab,
    line feed, vertical tab, form feed, carriage return, space and the
    no-break space. *)
Definition is_space (c : ascii) : bool :=
  in_range 9 13 c || Ascii.eqb c " " || (code c =? 160)%nat.

(** What [.] refuses: line feed and carriage return. *)
Definition is_line_terminator (c : ascii) : bool :=
  (code c =? 10)%nat || (code c =? 13)%nat.

(** The double quote character and the one-character text made of it. *)
Definition dquote_char : ascii := ascii_of_nat 34.
Definition dquote : string := String dquote_char EmptyString.

Definition is_empty (s : string) : bool :=
  match s with EmptyString => true | String _ _ => false end.

Definition chars (s : string) : list ascii := list_ascii_of_string s.
Definition text (l : list ascii) : string := string_of_list_ascii l.

Fixpoint drop_space (l : list ascii) : list ascii :=
  match l with
  | c :: l' => if is_space c then drop_space l' else l
  | [] => []
  end.

(** [String.prototype.trim]. *)
Definition trim (s : string) : string :=
  text (rev (drop_space (rev (drop_space (chars s))))).

(** [value[i]]: the character at index [i], [undefined] out of range. *)
Definition char_at (value : string) (i : nat) : option ascii := String.get i value.

(** [value[i - 1]], which is [undefined] at [i = 0]. *)
Definition char_before (value : string) (i : nat) : option ascii :=
  match i with
  | O => None
  | S j => String.get j value
  end.

(** [s.slice(1, -1)]. *)
Definition slice_1_m1 (s : string) : string :=
  String.substring 1 (String.length s - 2) s.

(** [parts.join(sep)]. *)
Definition join (sep : string) (parts : list string) : string :=
  String.concat sep parts.

(** [s.split(",")] for a one-character separator. *)
Fixpoint split_chars (sep : ascii) (cur : list ascii) (l : list ascii)
    : list (list ascii) :=
  match l with
  | [] => [rev cur]
  | c :: l' =>
      if Ascii.eqb c sep then rev cur :: split_chars sep [] l'
      else split_chars sep (c :: cur) l'
  end.

Definition split (sep : ascii) (s : string) : list string :=
  map text (split_chars sep [] (chars s)).

(** ** Results *)

Inductive ParseResult (T : Type) : Type :=
| Ok (value : T)
| Err (error : string).
Arguments Ok {T} value.
Arguments Err {T} error.

(** ** Sequence derivation *)

Inductive Comparator : Type := CmpLe | CmpGe.

Record CounterValues : Type := mkCounterValues {
  cv_values : list Z;
  cv_next : Z
}.

(** [const check = comparator === "<=" ? (value) => value <= end
                                       : (value) => value >= end]. *)
Definition check (comparator : Comparator) (end_ : Z) (value : Z) : bool :=
  match comparator with
  | CmpLe => value <=? end_
  | CmpGe => value >=? end_
  end.

Definition too_many_times : string :=
  "This loop would run too many times. Adjust the numbers.".

(** A value together with the equation that names it, to keep the outcome
    of a test in the context of a termination proof. *)
Definition inspect {A : Type} (a : A) : {b : A | a = b} := exist _ a eq_refl.

(** Upper bound on the turns the loop can still take: it returns as soon
    as [guard] passes 200. *)
Definition turns_left (guard : Z) : nat := Z.to_nat (201 - guard).

(** The [while] loop of [deriveCounterValues], on its three mutable
    variables [values], [current] and [guard].  The loop leaves through
    [return] as soon as [guard] passes 200, which bounds the number of
    turns that remain by [201 - guard]. *)
Equations? derive_loop (chk : Z -> bool) (step : Z)
    (values : list Z) (current guard : Z) : ParseResult CounterValues
    by wf (turns_left guard) lt :=
  derive_loop chk step values current guard with chk current := {
    | false := Ok (mkCounterValues values current);
    | true with inspect (guard + 1 >? 200) := {
        | exist _ true _ := Err too_many_times;
        | exist _ false Hguard :=
            derive_loop chk step (values ++ [current]) (current + step) (guard + 1)
      }
  }.
Proof.
  clear derive_loop. rewrite Z.gtb_ltb in Hguard. apply Z.ltb_ge in Hguard.
  unfold turns_left. lia.
Qed.

Definition deriveCounterValues (start end_ : Z) (comparator : Comparator)
    (step : Z) : ParseResult CounterValues :=
  derive_loop (check comparator end_) step [] start 0.

(** ** Regular expressions

    The patterns of the source are regular expression literals, matched
    by backtracking.  [regex] is their syntax and [rmatch] compiles a
    pattern to its backtracking matcher, in continuation-passing style:
    alternatives are tried from left to right, [*] takes as many turns
    as it can before it gives characters back and [*?] as few as it
    can. *)

Inductive regex : Type :=
| REmpty
| RChar (c : ascii)
| RClass (p : ascii -> bool)
| RSeq (r1 r2 : regex)
| RAlt (r1 r2 : regex)
| RStar (greedy : bool) (r : regex)
| RGroup (n : nat) (r : regex)
| RBackref (n : nat)
| RBegin
| REnd
| RWordBoundary.

(** A position in the input: the text before it (last character first),
    the text from it on, and the groups captured so far. *)
Record mstate : Type := mkState {
  ms_before : list ascii;
  ms_rest : list ascii;
  ms_caps : list (nat * list ascii)
}.

Definition advance (c : ascii) (st : mstate) (rest : list ascii) : mstate :=
  mkState (c :: ms_before st) rest (ms_caps st).

Fixpoint lookup_cap (n : nat) (caps : list (nat * list ascii))
    : option (list ascii) :=
  match caps with
  | [] => None
  | (m, s) :: caps' => if (m =? n)%nat then Some s else lookup_cap n caps'
  end.

(** The text consumed between two positions of one run. *)
Definition consumed (st st' : mstate) : list ascii :=
  firstn (List.length (ms_rest st) - List.length (ms_rest st')) (ms_rest st).

Fixpoint strip_prefix (p l : list ascii) : option (list ascii) :=
  match p, l with
  | [], _ => Some l
  | a :: p', b :: l' => if Ascii.eqb a b then strip_prefix p' l' else None
  | _ :: _, [] => None
  end.

Definition word_before (st : mstate) : bool :=
  match ms_before st with c :: _ => is_word c | [] => false end.

Definition word_after (st : mstate) : bool :=
  match ms_rest st with c :: _ => is_word c | [] => false end.

(** A matcher takes a position and a continuation and answers the final
    position of the first successful way through, if there is one. *)
Definition matcher : Type := mstate -> (mstate -> option mstate) -> option mstate.

(** The turns of [m*] ([greedy]) or [m*?].  A turn that consumes nothing
    is refused, so the characters left bound the number of turns:
    [fuel] starts as their count. *)
Fixpoint star_turns (greedy : bool) (m : matcher) (k : mstate -> option mstate)
    (fuel : nat) (st : mstate) {struct fuel} : option mstate :=
  match fuel with
  | O => k st
  | S fuel' =>
      if greedy then
        match m st (fun st' =>
                if (List.length (ms_rest st') <? List.length (ms_rest st))%nat
                then star_turns greedy m k fuel' st' else None) with
        | Some final => Some final
        | None => k st
        end
      else
        match k st with
        | Some final => Some final
        | None =>
            m st (fun st' =>
              if (List.length (ms_rest st') <? List.length (ms_rest st))%nat
              then star_turns greedy m k fuel' st' else None)
        end
  end.

Fixpoint rmatch (r : regex) : matcher :=
  match r with
  | REmpty => fun st k => k st
  | RChar c => fun st k =>
      match ms_rest st with
      | x :: rest => if Ascii.eqb x c then k (advance x st rest) else None
      | [] => None
      end
  | RClass p => fun st k =>
      match ms_rest st with
      | x :: rest => if p x then k (advance x st rest) else None
      | [] => None
      end
  | RSeq r1 r2 => fun st k => rmatch r1 st (fun st' => rmatch r2 st' k)
  | RAlt r1 r2 => fun st k =>
      match rmatch r1 st k with
      | Some final => Some final
      | None => rmatch r2 st k
      end
  | RStar greedy r1 => fun st k =>
      star_turns greedy (rmatch r1) k (List.length (ms_rest st)) st
  | RGroup n r1 => fun st k =>
      rmatch r1 st (fun st' =>
        k (mkState (ms_before st') (ms_rest st')
                   ((n, consumed st st') :: ms_caps st')))
  | RBackref n => fun st k =>
      match lookup_cap n (ms_caps st) with
      | None => k st
      | Some s =>
          match strip_prefix s (ms_rest st) with
          | Some rest => k (mkState (rev s ++ ms_before st) rest (ms_caps st))
          | None => None
          end
      end
  | RBegin => fun st k =>
      match ms_before st with [] => k st | _ :: _ => None end
  | REnd => fun st k =>
      match ms_rest st with [] => k st | _ :: _ => None end
  | RWordBoundary => fun st k =>
      if xorb (word_before st) (word_after st) then k st else None
  end.

(** The outcome of [exec]: the text before the match (last character
    first), the matched text, the text after it, and the groups. *)
Record rmatch_result : Type := mkMatch {
  m_before : list ascii;
  m_matched : list ascii;
  m_after : list ascii;
  m_caps : list (nat * list ascii)
}.

(** The leftmost match at or after the position [before | rest]. *)
Fixpoint regex_search (r : regex) (before rest : list ascii)
    : option rmatch_result :=
  match rmatch r (mkState before rest []) Some with
  | Some final =>
      Some (mkMatch before
              (firstn (List.length rest - List.length (ms_rest final)) rest)
              (ms_rest final) (ms_caps final))
  | None =>
      match rest with
      | [] => None
      | c :: rest' => regex_search r (c :: before) rest'
      end
  end.

(** [s.match(r)] for a pattern without the [g] flag. *)
Definition str_match (r : regex) (s : string) : option rmatch_result :=
  regex_search r [] (chars s).

(** [match[n]]; every group of the patterns below takes part in each of
    their matches. *)
Definition group (n : nat) (m : rmatch_result) : string :=
  match lookup_cap n (m_caps m) with
  | Some s => text s
  | None => EmptyString
  end.

(** [r.test(s)]. *)
Definition regex_test (r : regex) (s : string) : bool :=
  match str_match r s with Some _ => true | None => false end.

(** The replacement text of one match: [$$], [$&], [$`] and [$'] are
    expanded; the patterns that are replaced carry no group, so a [$]
    before any other character stands for itself. *)
Fixpoint get_substitution (matched before after replacement : list ascii)
    : list ascii :=
  match replacement with
  | [] => []
  | c :: t =>
      if Ascii.eqb c "$" then
        match t with
        | d :: t' =>
            if Ascii.eqb d "$" then "$"%char :: get_substitution matched before after t'
            else if Ascii.eqb d "&" then matched ++ get_substitution matched before after t'
            else if Ascii.eqb d "`" then before ++ get_substitution matched before after t'
            else if Ascii.eqb d "'" then after ++ get_substitution matched before after t'
            else c :: get_substitution matched before after t
        | [] => [c]
        end
      else c :: get_substitution matched before after t
  end.

(** [s.replace(r, replacement)] from the position [before | rest] on:
    the first match only, or with the [g] flag every match, the search
    resuming after each match and one character further after an empty
    one. *)
Fixpoint replace_from (fuel : nat) (global : bool) (r : regex)
    (replacement before rest : list ascii) : list ascii :=
  match fuel with
  | O => rest
  | S fuel' =>
      match regex_search r before rest with
      | None => rest
      | Some m =>
          let skipped :=
            firstn (List.length (m_before m) - List.length before) (rest) in
          let subst :=
            get_substitution (m_matched m) (rev (m_before m)) (m_after m)
                             replacement in
          if global then
            match m_matched m, m_after m with
            | [], [] => skipped ++ subst
            | [], c :: after =>
                skipped ++ subst ++
                c :: replace_from fuel' global r replacement (c :: m_before m) after
            | _ :: _, after =>
                skipped ++ subst ++
                replace_from fuel' global r replacement
                             (rev (m_matched m) ++ m_before m) after
            end
          else skipped ++ subst ++ m_after m
      end
  end.

Definition str_replace (global : bool) (r : regex) (replacement s : string)
    : string :=
  text (replace_from (S (String.length s)) global r (chars replacement) [] (chars s)).

(** Pattern building blocks. *)
Definition re_seq (rs : list regex) : regex := fold_right RSeq REmpty rs.
Definition re_lit (s : string) : regex := re_seq (map RChar (chars s)).
Definition re_opt (r : regex) : regex := RAlt r REmpty.
Definition re_plus (r : regex) : regex := RSeq r (RStar true r).
Definition re_spaces : regex := RStar true (RClass is_space).
Definition re_any : ascii -> bool := fun c => negb (is_line_terminator c).

(** ** Numbers *)

(** [String(n)] for an integer [n]. *)
Definition ToString (n : Z) : string := NilZero.string_of_int (Z.to_int n).

Definition digit_value (c : ascii) : Z := Z.of_nat (code c) - 48.

Definition digits_value (l : list ascii) : Z :=
  fold_left (fun acc c => acc * 10 + digit_value c) l 0.

(** The value of a text of the shape [[+-]?\d+]. *)
Definition int_value (l : list ascii) : Z :=
  match l with
  | "-"%char :: ds => - digits_value ds
  | "+"%char :: ds => digits_value ds
  | ds => digits_value ds
  end.

Definition is_int_literal (l : list ascii) : bool :=
  match l with
  | "-"%char :: (_ :: _) as ds | "+"%char :: (_ :: _) as ds => forallb is_digit ds
  | _ :: _ => forallb is_digit l
  | [] => false
  end.

(** [Number(s)] on a text that the calling pattern has already matched
    against [-?\d+]. *)
Definition NumberOfDigits (s : string) : Z := int_value (chars s).

(** The numeric literals [Number] reads, once white space is trimmed:
    an optional sign before [Infinity] or a decimal literal (digits with
    an optional fraction and exponent, or a dot, digits and an optional
    exponent), or a binary, octal or hexadecimal integer literal. *)
Definition is_sign (c : ascii) : bool := Ascii.eqb c "+" || Ascii.eqb c "-".
Definition is_hex_digit (c : ascii) : bool :=
  is_digit c || in_range 65 70 c || in_range 97 102 c.
Definition re_digits : regex := re_plus (RClass is_digit).
Definition re_exponent : regex :=
  re_opt (re_seq [RClass (fun c => Ascii.eqb c "e" || Ascii.eqb c "E");
                  re_opt (RClass is_sign); re_digits]).
Definition re_unsigned_decimal : regex :=
  RAlt (re_seq [re_digits;
                re_opt (RSeq (RChar ".") (RStar true (RClass is_digit)));
                re_exponent])
       (re_seq [RChar "."; re_digits; re_exponent]).
Definition re_radix_literal : regex :=
  RSeq (RChar "0")
    (RAlt (RSeq (RClass (fun c => Ascii.eqb c "x" || Ascii.eqb c "X"))
                (re_plus (RClass is_hex_digit)))
       (RAlt (RSeq (RClass (fun c => Ascii.eqb c "o" || Ascii.eqb c "O"))
                   (re_plus (RClass (in_range 48 55))))
             (RSeq (RClass (fun c => Ascii.eqb c "b" || Ascii.eqb c "B"))
                   (re_plus (RClass (in_range 48 49)))))).
Definition finite_literal_regex : regex :=
  re_seq [RBegin;
          RAlt (RSeq (re_opt (RClass is_sign)) re_unsigned_decimal)
               re_radix_literal;
          REnd].

(** What [Number(s)] followed by [Number.isFinite] can tell about an
    arbitrary text.  White space is trimmed and the empty text is 0; an
    optionally signed run of digits is that integer; any other literal
    of the grammar above (a fraction, an exponent, a radix prefix) is a
    number outside the integer fragment of this embedding; every other
    text, [Infinity] with its sign included, gives [NaN] or an
    infinity, which are not finite. *)
Inductive jsnumber : Type :=
| JInt (n : Z)
| JNotFinite
| JOutside.

Definition Number (s : string) : jsnumber :=
  let t := trim s in
  if is_empty t then JInt 0
  else if is_int_literal (chars t) then JInt (int_value (chars t))
  else if regex_test finite_literal_regex t then JOutside
  else JNotFinite.

(** ** Data model *)

Inductive LessonKey : Type := LFor | LWhile | LForeach.

Inductive LoopPart : Type := PStart | PCondition | PStep | PBody.

Record CounterConfig : Type := mkCounterConfig {
  cc_variable : string;
  cc_start : Z;
  cc_comparator : Comparator;
  cc_end : Z;
  cc_step : Z;
  cc_values : list Z;
  cc_nextValue : Z;
  cc_message : string
}.

Record ForEachConfig : Type := mkForEachConfig {
  fc_values : list Z;
  fc_message : string
}.

(** The four text fragments kept with a parse, [texts]. *)
Record Texts : Type := mkTexts {
  t_start : string;
  t_condition : string;
  t_step : string;
  t_body : string
}.

Record CounterParse : Type := mkCounterParse {
  cp_config : CounterConfig;
  cp_texts : Texts
}.

Record ForEachParse : Type := mkForEachParse {
  fp_config : ForEachConfig;
  fp_texts : Texts
}.

(** An event.  The builders always set [highlight], to a part or to
    [null] (here [None]); the optional fields [trace], [console] and
    [counter] are [None] when absent. *)
Record LessonEvent : Type := mkEvent {
  highlight : option LoopPart;
  trace : option string;
  console : option string;
  counter : option string
}.

Record LessonData : Type := mkLessonData {
  events : list LessonEvent;
  traceLines : list string;
  consoleLines : list string;
  finalCounter : string
}.

(** [editableSpans]: for each lesson, when it is registered, the text
    content of the span of each part, when there is one. *)
Definition SpanStore : Type := LessonKey -> option (LoopPart -> option string).

(** [defaultText]. *)
Definition defaultText (lesson : LessonKey) (part : LoopPart) : string :=
  match lesson, part with
  | LFor, PStart => "let i = 1"
  | LFor, PCondition => "i <= 5"
  | LFor, PStep => "i = i + 1"
  | LFor, PBody => "console.log(" ++ dquote ++ "Looping is learning" ++ dquote ++ ", i);"
  | LWhile, PStart => "let i = 1;"
  | LWhile, PCondition => "i <= 5"
  | LWhile, PStep => "i = i + 1;"
  | LWhile, PBody => "console.log(" ++ dquote ++ "Looping is learning" ++ dquote ++ ", i);"
  | LForeach, PStart => "const values = [2, 4, 6];"
  | LForeach, PCondition => "values.forEach((value, index) => {"
  | LForeach, PStep => "// forEach moves to the next item automatically"
  | LForeach, PBody => "console.log(" ++ dquote ++ "Value" ++ dquote ++ ", index, value);"
  end.

(** The spans after [resetLesson] of every lesson: each holds its default. *)
Definition defaultSpans : SpanStore :=
  fun lesson => Some (fun part => Some (defaultText lesson part)).

(** [getSpanText]: the trimmed text content of the span, the empty text
    when the span or its content is missing. *)
Definition getSpanText (span : option string) : string :=
  trim (match span with Some content => content | None => EmptyString end).

(** ** Patterns of the source *)

(** [[a-zA-Z_$]] and [[\w$]]. *)
Definition ident_start (c : ascii) : bool :=
  is_letter c || Ascii.eqb c "_" || Ascii.eqb c "$".
Definition ident_part (c : ascii) : bool := is_word c || Ascii.eqb c "$".

(** [/;$/]. *)
Definition semicolon_end_regex : regex := RSeq (RChar ";") REnd.

(** [s.replace(/;$/, EmptyString)]. *)
Definition strip_semicolon (s : string) : string :=
  str_replace false semicolon_end_regex EmptyString s.

(** [-?\d+]. *)
Definition re_signed_int : regex :=
  RSeq (re_opt (RChar "-")) (re_plus (RClass is_digit)).

(** The pattern of the start fragment; with blanks between its parts,
    [^ (?:let|const|var)? \s* ( [a-zA-Z_$] [\w$]* ) \s* = \s* ( -?\d+ ) $]. *)
Definition start_regex : regex :=
  re_seq [RBegin;
          re_opt (RAlt (re_lit "let") (RAlt (re_lit "const") (re_lit "var")));
          re_spaces;
          RGroup 1 (RSeq (RClass ident_start) (RStar true (RClass ident_part)));
          re_spaces; RChar "="; re_spaces;
          RGroup 2 re_signed_int;
          REnd].

(** The captured variable, spliced as it is into the source text of a
    pattern.  Its characters are those of an identifier: a letter,
    a digit or an underscore stands for itself, and [$] is read by
    [new RegExp] as the end-of-input assertion. *)
Definition pattern_of_variable (variable : string) : regex :=
  re_seq (map (fun c => if Ascii.eqb c "$" then REnd else RChar c)
              (chars variable)).

(** [new RegExp("^" + variable + "\\s*(<=|>=)\\s*(-?\\d+)$")]. *)
Definition conditionPattern (variable : string) : regex :=
  re_seq [RBegin; pattern_of_variable variable; re_spaces;
          RGroup 1 (RAlt (re_lit "<=") (re_lit ">="));
          re_spaces;
          RGroup 2 re_signed_int;
          REnd].

(** [new RegExp("^" + variable + "\\s*=\\s*" + variable
                + "\\s*([+-])\\s*(\\d+)$")]. *)
Definition stepPattern (variable : string) : regex :=
  re_seq [RBegin; pattern_of_variable variable; re_spaces; RChar "="; re_spaces;
          pattern_of_variable variable; re_spaces;
          RGroup 1 (RClass (fun c => Ascii.eqb c "+" || Ascii.eqb c "-"));
          re_spaces;
          RGroup 2 (re_plus (RClass is_digit));
          REnd].

(** The pattern of the array literal; with blanks between its parts,
    [\[ ( .* ) \]]. *)
Definition array_regex : regex :=
  re_seq [RChar "["; RGroup 1 (RStar true (RClass re_any)); RChar "]"].

(** The pattern of [extractMessage]: [console\.log\(], then group 1, a
    single or a double quote, then group 2, the shortest run of [.],
    then [\1]. *)
Definition message_regex : regex :=
  re_seq [re_lit "console.log(";
          RGroup 1 (RClass (fun c => Ascii.eqb c "'" || Ascii.eqb c dquote_char));
          RGroup 2 (RStar false (RClass re_any));
          RBackref 1].

(** The call shape; with blanks between its parts,
    [^ console\.log \s* \( ( .* ) \) \s* ;? $]. *)
Definition console_log_regex : regex :=
  re_seq [RBegin; re_lit "console.log"; re_spaces; RChar "(";
          RGroup 1 (RStar true (RClass re_any));
          RChar ")"; re_spaces; re_opt (RChar ";"); REnd].

(** [-?\d+(?:\.\d+)?]. *)
Definition re_decimal : regex :=
  re_seq [re_opt (RChar "-"); re_plus (RClass is_digit);
          re_opt (RSeq (RChar ".") (re_plus (RClass is_digit)))].

(** [/^-?\d+(?:\.\d+)?$/]. *)
Definition number_regex : regex := re_seq [RBegin; re_decimal; REnd].

(** The binary expression; with blanks between its parts,
    [^ ( [a-zA-Z_$] [\w$]* ) \s* ( [+-] ) \s* ( -?\d+ (?:\.\d+)? ) $]. *)
Definition plus_regex : regex :=
  re_seq [RBegin;
          RGroup 1 (RSeq (RClass ident_start) (RStar true (RClass ident_part)));
          re_spaces;
          RGroup 2 (RClass (fun c => Ascii.eqb c "+" || Ascii.eqb c "-"));
          re_spaces;
          RGroup 3 re_decimal;
          REnd].

(** The characters [escapeRegExp] puts a backslash before, those of the
    class "[.*+?^${}()|[\]\\]". *)
Definition is_regexp_special (c : ascii) : bool :=
  existsb (Ascii.eqb c) (chars ".*+?^${}()|[]\").

(** [escapeRegExp]: [value.replace(/[.*+?^${}()|[\]\\]/g, "\\$&")], every
    character of the class replaced by a backslash and itself. *)
Definition escapeRegExp (value : string) : string :=
  str_replace true (RClass is_regexp_special) "\$&" value.

(** The pattern [new RegExp] reads in an escaped text: a backslash makes
    the character after it stand for itself, and the other characters of
    an escaped text have no meaning of their own in a pattern. *)
Fixpoint pattern_of_escaped (escaped : list ascii) : regex :=
  match escaped with
  | [] => REmpty
  | c :: rest =>
      if Ascii.eqb c "\" then
        match rest with
        | d :: rest' => RSeq (RChar d) (pattern_of_escaped rest')
        | [] => REmpty
        end
      else RSeq (RChar c) (pattern_of_escaped rest)
  end.

(** [new RegExp("\\b" + escapeRegExp(token) + "\\b", "g")]. *)
Definition identifier_regex (token : string) : regex :=
  re_seq [RWordBoundary;
          pattern_of_escaped (chars (escapeRegExp token));
          RWordBoundary].

(** ** Statement templater *)

(** [current += char]. *)
Definition push_char (current : string) (char : ascii) : string :=
  current ++ String char EmptyString.

(** The replacement map, an object built by a literal: its entries in
    the order [Object.entries] lists them, the order of insertion.  Only
    the object's own keys are embedded, not the ones it inherits from
    [Object.prototype]. *)
Definition Replacements : Type := list (string * string).

(** [replacements[key]], [undefined] when [key in replacements] is false. *)
Fixpoint lookup (key : string) (replacements : Replacements) : option string :=
  match replacements with
  | [] => None
  | (token, replacement) :: rest =>
      if String.eqb token key then Some replacement else lookup key rest
  end.

Definition replaceIdentifiers (value : string) (replacements : Replacements)
    : string :=
  fold_left
    (fun result entry =>
       str_replace true (identifier_regex (fst entry)) (snd entry) result)
    replacements value.

(** The variables of the scanner of [splitArguments]. *)
Record SplitState : Type := mkSplit {
  sp_args : list string;
  sp_current : string;
  sp_depth : nat;
  sp_quote : option ascii
}.

Definition is_quote_char (c : ascii) : bool :=
  Ascii.eqb c dquote_char || Ascii.eqb c "'" || Ascii.eqb c "`".

Definition is_backslash (c : option ascii) : bool :=
  match c with Some b => Ascii.eqb b "\" | None => false end.

(** [args.push(current.trim())] when the trimmed text is not empty. *)
Definition push_arg (args : list string) (current : string) : list string :=
  if is_empty (trim current) then args else args ++ [trim current].

(** One turn of the [for] loop of [splitArguments], at index [i]. *)
Definition split_step (value : string) (i : nat) (st : SplitState)
    : SplitState :=
  match char_at value i with
  | None => st
  | Some char =>
      match sp_quote st with
      | Some quote =>
          let current := push_char (sp_current st) char in
          if Ascii.eqb char quote && negb (is_backslash (char_before value i))
          then mkSplit (sp_args st) current (sp_depth st) None
          else mkSplit (sp_args st) current (sp_depth st) (Some quote)
      | None =>
          if is_quote_char char then
            mkSplit (sp_args st) (push_char (sp_current st) char)
                    (sp_depth st) (Some char)
          else if Ascii.eqb char "(" then
            mkSplit (sp_args st) (push_char (sp_current st) char)
                    (S (sp_depth st)) None
          else if Ascii.eqb char ")" then
            mkSplit (sp_args st) (push_char (sp_current st) char)
                    (Nat.pred (sp_depth st)) None
          else if Ascii.eqb char "," && (sp_depth st =? 0)%nat then
            mkSplit (push_arg (sp_args st) (sp_current st)) EmptyString
                    (sp_depth st) None
          else
            mkSplit (sp_args st) (push_char (sp_current st) char)
                    (sp_depth st) None
      end
  end.

(** The turns at indices [i], [i + 1], ..., [i + n - 1]. *)
Fixpoint split_loop (n : nat) (value : string) (i : nat) (st : SplitState)
    : SplitState :=
  match n with
  | O => st
  | S n' => split_loop n' value (S i) (split_step value i st)
  end.

(** The scanner before the first character: no argument, an empty
    [current], depth 0, outside any quoted span. *)
Definition split_init : SplitState := mkSplit [] EmptyString 0 None.

Definition splitArguments (value : string) : list string :=
  let final := split_loop (String.length value) value 0 split_init in
  push_arg (sp_args final) (sp_current final).

Definition char_is (c : option ascii) (d : ascii) : bool :=
  match c with Some x => Ascii.eqb x d | None => false end.

(** [evaluateToken].  The result is [None] when the token asks for
    arithmetic outside the integer fragment of the embedding. *)
Definition evaluateToken (token : string) (replacements : Replacements)
    : option string :=
  let trimmed := trim token in
  if is_empty trimmed then Some EmptyString
  else
    let first := char_at trimmed 0 in
    let last := char_at trimmed (String.length trimmed - 1) in
    if (char_is first dquote_char && char_is last dquote_char)
       || (char_is first "'" && char_is last "'")
    then Some (slice_1_m1 trimmed)
    else if char_is first "`" && char_is last "`"
    then Some (replaceIdentifiers (slice_1_m1 trimmed) replacements)
    else if regex_test number_regex trimmed then Some trimmed
    else
      match lookup trimmed replacements with
      | Some replacement => Some replacement
      | None =>
          match str_match plus_regex trimmed with
          | Some plusMatch =>
              let baseValue :=
                match lookup (group 1 plusMatch) replacements with
                | Some replacement => replacement
                | None => group 1 plusMatch
                end in
              match Number baseValue with
              | JInt numericBase =>
                  match Number (group 3 plusMatch) with
                  | JInt modifier =>
                      let result :=
                        if String.eqb (group 2 plusMatch) "+"
                        then numericBase + modifier
                        else numericBase - modifier in
                      Some (ToString result)
                  | _ => None
                  end
              | JNotFinite => Some (replaceIdentifiers trimmed replacements)
              | JOutside => None
              end
          | None => Some (replaceIdentifiers trimmed replacements)
          end
      end.

(** [args.map(f)] for an [f] that may leave the fragment. *)
Fixpoint map_tokens (f : string -> option string) (args : list string)
    : option (list string) :=
  match args with
  | [] => Some []
  | arg :: rest =>
      match f arg, map_tokens f rest with
      | Some part, Some parts => Some (part :: parts)
      | _, _ => None
      end
  end.

Definition no_console_output : string := "(no console output)".

Definition formatConsoleStatement (template : string)
    (replacements : Replacements) : option string :=
  let trimmed := trim template in
  if is_empty trimmed then Some no_console_output
  else
    match str_match console_log_regex trimmed with
    | None => Some (replaceIdentifiers trimmed replacements)
    | Some m =>
        let args := splitArguments (group 1 m) in
        match args with
        | [] => Some EmptyString
        | _ :: _ =>
            match map_tokens (fun arg => evaluateToken arg replacements) args with
            | None => None
            | Some parts =>
                let evaluated :=
                  filter (fun part => negb (is_empty part)) parts in
                let output := trim (join " " evaluated) in
                if is_empty output
                then Some (replaceIdentifiers trimmed replacements)
                else Some output
            end
        end
    end.

(** ** Parsers *)

(** [extractMessage]: the text within the first quoted argument of a
    logging call, [null] when there is none. *)
Definition extractMessage (body : string) : option string :=
  match str_match message_regex body with
  | None => None
  | Some m => Some (group 2 m)
  end.

(** [conditionMatch[1] as Comparator]: group 1 is one of the two
    comparators. *)
Definition comparator_of (s : string) : Comparator :=
  if String.eqb s "<=" then CmpLe else CmpGe.

(** [comparator === other]. *)
Definition cmp_eqb (comparator other : Comparator) : bool :=
  match comparator, other with
  | CmpLe, CmpLe | CmpGe, CmpGe => true
  | _, _ => false
  end.

(** The comparator as it is printed in a trace. *)
Definition comparator_text (comparator : Comparator) : string :=
  match comparator with CmpLe => "<=" | CmpGe => ">=" end.

(** [startText.replace(/;$/, EmptyString).match(...)]. *)
Definition match_start (startText : string) : option rmatch_result :=
  str_match start_regex (strip_semicolon startText).

(** [conditionText.replace(/;$/, EmptyString).match(conditionPattern)]. *)
Definition match_condition (variable conditionText : string)
    : option rmatch_result :=
  str_match (conditionPattern variable) (strip_semicolon conditionText).

(** [stepText.replace(/;$/, EmptyString).match(stepPattern)]. *)
Definition match_step (variable stepText : string) : option rmatch_result :=
  str_match (stepPattern variable) (strip_semicolon stepText).

(** The first two groups of a match, [match[1]] and [match[2]]. *)
Definition captures (m : rmatch_result) : string * string :=
  (group 1 m, group 2 m).

(** [stepMatch[1] === "+" ? 1 : -1] and [Number(stepMatch[2])]. *)
Definition step_direction (stepMatch : rmatch_result) : Z :=
  if String.eqb (group 1 stepMatch) "+" then 1 else -1.
Definition step_magnitude (stepMatch : rmatch_result) : Z :=
  NumberOfDigits (group 2 stepMatch).

Definition parseCounterConfig (spans : SpanStore) (lesson : LessonKey)
    : ParseResult CounterParse :=
  match spans lesson with
  | None => Err "Missing editable parts."
  | Some parts =>
      let startText := getSpanText (parts PStart) in
      let conditionText := getSpanText (parts PCondition) in
      let stepText := getSpanText (parts PStep) in
      let bodyText := getSpanText (parts PBody) in
      match match_start startText with
      | None => Err "Could not read the starting value. Keep it like let i = 1."
      | Some startMatch =>
          let variable := group 1 startMatch in
          let startValue := NumberOfDigits (group 2 startMatch) in
          match match_condition variable conditionText with
          | None =>
              Err ("Could not read the condition. Keep it like "
                   ++ variable ++ " <= 5.")
          | Some conditionMatch =>
              let comparator := comparator_of (group 1 conditionMatch) in
              let endValue := NumberOfDigits (group 2 conditionMatch) in
              match match_step variable stepText with
              | None =>
                  Err ("Could not read the step. Keep it like "
                       ++ variable ++ " = " ++ variable ++ " + 1.")
              | Some stepMatch =>
                  let stepDirection := step_direction stepMatch in
                  let magnitude := step_magnitude stepMatch in
                  if magnitude =? 0 then Err "The step must change the counter."
                  else
                    let stepValue := stepDirection * magnitude in
                    if cmp_eqb comparator CmpLe && (stepValue <=? 0)
                    then Err "A <= comparison needs a positive step."
                    else if cmp_eqb comparator CmpGe && (stepValue >=? 0)
                    then Err "A >= comparison needs a negative step."
                    else
                      match deriveCounterValues startValue endValue
                                                comparator stepValue with
                      | Err error => Err error
                      | Ok valuesResult =>
                          let message :=
                            match extractMessage bodyText with
                            | Some found => found
                            | None => "Looping is learning"
                            end in
                          Ok (mkCounterParse
                                (mkCounterConfig variable startValue comparator
                                   endValue stepValue
                                   (cv_values valuesResult)
                                   (cv_next valuesResult) message)
                                (mkTexts startText conditionText stepText
                                         bodyText))
                      end
              end
          end
      end
  end.

(** The loop over [rawItems] of [parseForEachConfig]; [None] when an
    item is a number outside the integer fragment of the embedding. *)
Fixpoint parse_items (rawItems : list string) (values : list Z)
    : option (ParseResult (list Z)) :=
  match rawItems with
  | [] => Some (Ok values)
  | item :: rest =>
      match Number item with
      | JInt value => parse_items rest (values ++ [value])
      | JNotFinite =>
          Some (Err "Only numbers are supported in this playground array.")
      | JOutside => None
      end
  end.

Definition parseForEachConfig (spans : SpanStore)
    : option (ParseResult ForEachParse) :=
  match spans LForeach with
  | None => Some (Err "Missing editable parts.")
  | Some parts =>
      let arrayText := getSpanText (parts PStart) in
      let bodyText := getSpanText (parts PBody) in
      match str_match array_regex arrayText with
      | None =>
          Some (Err "Could not read the array. Keep it like const values = [1, 2, 3];")
      | Some arrayMatch =>
          let rawItems :=
            filter (fun item => negb (is_empty item))
                   (map trim (split "," (group 1 arrayMatch))) in
          match rawItems with
          | [] => Some (Err "Add at least one number to the array.")
          | _ :: _ =>
              match parse_items rawItems [] with
              | None => None
              | Some (Err error) => Some (Err error)
              | Some (Ok values) =>
                  let message :=
                    match extractMessage bodyText with
                    | Some found => found
                    | None => "Value"
                    end in
                  Some (Ok (mkForEachParse
                              (mkForEachConfig values message)
                              (mkTexts arrayText
                                       (getSpanText (parts PCondition))
                                       (getSpanText (parts PStep))
                                       bodyText)))
              end
          end
      end
  end.

(** ** Lesson builders *)

Definition formatCounter (variable : string) (value : Z) : string :=
  variable ++ " = " ++ ToString value.

(** [formatForEachCounter(index, value, total)]; [index] may be [null],
    [value] and [total] may be [undefined]. *)
Definition formatForEachCounter (index : option nat) (value : option Z)
    (total : option nat) : string :=
  match index with
  | None => "index = -- (value --)"
  | Some index =>
      if match total with Some total => (total <=? index)%nat | None => false end
      then "index = " ++ ToString (Z.of_nat index) ++ " (done)"
      else
        match value with
        | None => "index = " ++ ToString (Z.of_nat index) ++ " (waiting)"
        | Some value =>
            "index = " ++ ToString (Z.of_nat index)
            ++ " (value " ++ ToString value ++ ")"
        end
  end.

(** The three arrays a builder fills: [events], [trace], [consoleLines]. *)
Record Builder : Type := mkBuilder {
  b_events : list LessonEvent;
  b_trace : list string;
  b_console : list string
}.

(** [array.forEach((value, index) => ...)] for a callback that updates
    the builder's arrays, from [index] on. *)
Fixpoint forEach_from {A : Type} (callback : Builder -> A -> nat -> option Builder)
    (array : list A) (index : nat) (b : Builder) : option Builder :=
  match array with
  | [] => Some b
  | value :: rest =>
      match callback b value index with
      | Some b' => forEach_from callback rest (S index) b'
      | None => None
      end
  end.

Definition forEach {A : Type} (callback : Builder -> A -> nat -> option Builder)
    (array : list A) (b : Builder) : option Builder :=
  forEach_from callback array 0 b.

(** The callback of [buildCounterLessonData]. *)
Definition counter_callback (config : CounterConfig) (texts : Texts)
    (b : Builder) (value : Z) (index : nat) : option Builder :=
  let iteration := (index + 1)%nat in
  let conditionTrace :=
    "Check " ++ cc_variable config ++ " " ++ comparator_text (cc_comparator config)
    ++ " " ++ ToString (cc_end config) ++ " with " ++ cc_variable config
    ++ " = " ++ ToString value ++ " -> " ++ "yes" in
  match formatConsoleStatement (t_body texts)
          [(cc_variable config, ToString value)] with
  | None => None
  | Some consoleLine =>
      let bodyTrace :=
        "Body (iteration " ++ ToString (Z.of_nat iteration)
        ++ "): run console.log with " ++ cc_variable config ++ " = "
        ++ ToString value in
      let next := value + cc_step config in
      let stepTrace :=
        "Update: " ++ trim (t_step texts) ++ " -> "
        ++ formatCounter (cc_variable config) next in
      Some (mkBuilder
              (b_events b ++
               [mkEvent (Some PCondition) (Some conditionTrace) None
                        (Some (formatCounter (cc_variable config) value));
                mkEvent (Some PBody) (Some bodyTrace) (Some consoleLine)
                        (Some (formatCounter (cc_variable config) value));
                mkEvent (Some PStep) (Some stepTrace) None
                        (Some (formatCounter (cc_variable config) next))])
              (b_trace b ++ [conditionTrace; bodyTrace; stepTrace])
              (b_console b ++ [consoleLine]))
  end.

Definition buildCounterLessonData (lesson : LessonKey) (parse : CounterParse)
    : option LessonData :=
  let config := cp_config parse in
  let texts := cp_texts parse in
  let startCounter := formatCounter (cc_variable config) (cc_start config) in
  let startLabel := match lesson with LFor => "Start" | _ => "Setup" end in
  let startTrace :=
    startLabel ++ ": " ++ trim (t_start texts) ++ " -> " ++ startCounter in
  match forEach (counter_callback config texts) (cc_values config)
          (mkBuilder [mkEvent (Some PStart) (Some startTrace) None
                              (Some startCounter)]
                     [startTrace] []) with
  | None => None
  | Some b =>
      let finalConditionTrace :=
        "Check " ++ cc_variable config ++ " "
        ++ comparator_text (cc_comparator config) ++ " "
        ++ ToString (cc_end config) ++ " with " ++ cc_variable config ++ " = "
        ++ ToString (cc_nextValue config) ++ " -> no" in
      let finalCounter :=
        formatCounter (cc_variable config) (cc_nextValue config) in
      Some (mkLessonData
              (b_events b ++
               [mkEvent (Some PCondition) (Some finalConditionTrace) None
                        (Some finalCounter);
                mkEvent None None None (Some finalCounter)])
              (b_trace b ++ [finalConditionTrace])
              (b_console b)
              finalCounter)
  end.

(** The callback of [buildForEachLessonData]. *)
Definition foreach_callback (config : ForEachConfig) (texts : Texts)
    (b : Builder) (value : Z) (index : nat) : option Builder :=
  let total := List.length (fc_values config) in
  let conditionTrace :=
    "Check next item (index " ++ ToString (Z.of_nat index) ++ ") -> yes" in
  match formatConsoleStatement (t_body texts)
          [("value", ToString value); ("index", ToString (Z.of_nat index))] with
  | None => None
  | Some consoleLine =>
      let bodyTrace :=
        "Callback for index " ++ ToString (Z.of_nat index) ++ " with value "
        ++ ToString value in
      let stepTrace :=
        if is_empty (trim (t_step texts))
        then "forEach moves to the next item."
        else trim (t_step texts) in
      Some (mkBuilder
              (b_events b ++
               [mkEvent (Some PCondition) (Some conditionTrace) None
                        (Some (formatForEachCounter (Some index) (Some value)
                                                    (Some total)));
                mkEvent (Some PBody) (Some bodyTrace) (Some consoleLine)
                        (Some (formatForEachCounter (Some index) (Some value)
                                                    (Some total)));
                mkEvent (Some PStep) (Some stepTrace) None
                        (Some (formatForEachCounter
                                 (Some (index + 1)%nat)
                                 (nth_error (fc_values config) (index + 1))
                                 (Some total)))])
              (b_trace b ++ [conditionTrace; bodyTrace; stepTrace])
              (b_console b ++ [consoleLine]))
  end.

Definition buildForEachLessonData (parse : ForEachParse) : option LessonData :=
  let config := fp_config parse in
  let texts := fp_texts parse in
  let total := List.length (fc_values config) in
  let startTrace :=
    "Start: array has " ++ ToString (Z.of_nat total) ++ " item(s)." in
  match forEach (foreach_callback config texts) (fc_values config)
          (mkBuilder [mkEvent (Some PStart) (Some startTrace) None
                              (Some (formatForEachCounter None None None))]
                     [startTrace] []) with
  | None => None
  | Some b =>
      let finalTrace := "Check next item -> no (array finished)." in
      let finalCounter := formatForEachCounter (Some total) None (Some total) in
      Some (mkLessonData
              (b_events b ++
               [mkEvent (Some PCondition) (Some finalTrace) None (Some finalCounter);
                mkEvent None None None (Some finalCounter)])
              (b_trace b ++ [finalTrace])
              (b_console b)
              finalCounter)
  end.

(** [collectLessonData]; [None] when a builder or the array parser
    leaves the integer fragment of the embedding. *)
Definition collectLessonData (spans : SpanStore) (lesson : LessonKey)
    : option (ParseResult LessonData) :=
  match lesson with
  | LForeach =>
      match parseForEachConfig spans with
      | None => None
      | Some (Err error) => Some (Err error)
      | Some (Ok parse) =>
          match buildForEachLessonData parse with
          | None => None
          | Some data => Some (Ok data)
          end
      end
  | _ =>
      match parseCounterConfig spans lesson with
      | Err error => Some (Err error)
      | Ok parse =>
          match buildCounterLessonData lesson parse with
          | None => None
          | Some data => Some (Ok data)
          end
      end
  end.

(** A store in which the spans of every lesson hold the four given texts. *)
Definition spans_with (start condition step body : string) : SpanStore :=
  fun _ =>
    Some (fun part =>
            Some match part with
                 | PStart => start
                 | PCondition => condition
                 | PStep => step
                 | PBody => body
                 end).

(** [haystack.includes(needle)]. *)
Fixpoint includes (needle haystack : string) : bool :=
  String.prefix needle haystack
  || match haystack with
     | EmptyString => false
     | String _ rest => includes needle rest
     end.

(** ** The page and its handlers

    The mutable state the handlers share: the text of the editable
    spans, the highlighted part of each lesson ([activeParts], from
    which the classes of the highlight spans and the explanation box are
    rendered), whether the Next button of each lesson is enabled, the
    three output boxes of each lesson, and the variables of the step
    sequence. *)

Record Page : Type := mkPage {
  pg_spans : SpanStore;
  pg_active : LessonKey -> option LoopPart;
  pg_next : LessonKey -> bool;
  pg_counter : LessonKey -> string;
  pg_trace : LessonKey -> string;
  pg_console : LessonKey -> string;
  stepLesson : option LessonKey;
  stepEvents : list LessonEvent;
  stepIndex : nat;
  stepTrace : list string;
  stepConsole : list string
}.

Definition lesson_eqb (a b : LessonKey) : bool :=
  match a, b with
  | LFor, LFor | LWhile, LWhile | LForeach, LForeach => true
  | _, _ => false
  end.

(** [table[lesson] = value]. *)
Definition set_at {A : Type} (table : LessonKey -> A) (lesson : LessonKey)
    (value : A) : LessonKey -> A :=
  fun other => if lesson_eqb other lesson then value else table other.

(** [initialConsole], [initialTrace] and [initialCounterText]. *)
Definition initialConsole (lesson : LessonKey) : string :=
  "Console output (like DevTools) will appear here.".
Definition initialTrace (lesson : LessonKey) : string :=
  "Trace will explain each part of the loop.".
Definition initialCounterText (lesson : LessonKey) : string :=
  match lesson with
  | LForeach => "index = -- (value --)"
  | _ => "Counter not started"
  end.

(** The line feed and the separator of joined lines. *)
Definition newline_char : ascii := ascii_of_nat 10.

(** [setNextEnabled(active, enabled)]: the Next button of [lesson] is
    enabled when [enabled && lesson === active]. *)
Definition setNextEnabled (active : option LessonKey) (enabled : bool)
    (page : Page) : Page :=
  mkPage (pg_spans page) (pg_active page)
         (fun lesson =>
            enabled && match active with
                       | Some a => lesson_eqb lesson a
                       | None => false
                       end)
         (pg_counter page) (pg_trace page) (pg_console page)
         (stepLesson page) (stepEvents page) (stepIndex page)
         (stepTrace page) (stepConsole page).

(** [setActivePart(lesson, part)]; [part] is [None] when it is left out
    or [null]. *)
Definition setActivePart (lesson : LessonKey) (part : option LoopPart)
    (page : Page) : Page :=
  mkPage (pg_spans page) (set_at (pg_active page) lesson part) (pg_next page)
         (pg_counter page) (pg_trace page) (pg_console page)
         (stepLesson page) (stepEvents page) (stepIndex page)
         (stepTrace page) (stepConsole page).

(** Writing the three output boxes of a lesson. *)
Definition set_counter (lesson : LessonKey) (value : string) (page : Page) : Page :=
  mkPage (pg_spans page) (pg_active page) (pg_next page)
         (set_at (pg_counter page) lesson value) (pg_trace page) (pg_console page)
         (stepLesson page) (stepEvents page) (stepIndex page)
         (stepTrace page) (stepConsole page).
Definition set_trace (lesson : LessonKey) (value : string) (page : Page) : Page :=
  mkPage (pg_spans page) (pg_active page) (pg_next page)
         (pg_counter page) (set_at (pg_trace page) lesson value) (pg_console page)
         (stepLesson page) (stepEvents page) (stepIndex page)
         (stepTrace page) (stepConsole page).
Definition set_console (lesson : LessonKey) (value : string) (page : Page) : Page :=
  mkPage (pg_spans page) (pg_active page) (pg_next page)
         (pg_counter page) (pg_trace page) (set_at (pg_console page) lesson value)
         (stepLesson page) (stepEvents page) (stepIndex page)
         (stepTrace page) (stepConsole page).

(** Assigning the variables of the step sequence. *)
Definition set_step (lesson : option LessonKey) (events : list LessonEvent)
    (index : nat) (trace console : list string) (page : Page) : Page :=
  mkPage (pg_spans page) (pg_active page) (pg_next page)
         (pg_counter page) (pg_trace page) (pg_console page)
         lesson events index trace console.

Definition stopStepping (page : Page) : Page :=
  let page1 :=
    match stepLesson page with
    | Some lesson => setActivePart lesson None page
    | None => page
    end in
  set_step None [] 0 [] [] (setNextEnabled None false page1).







Definition same_lesson (current : option LessonKey) (lesson : LessonKey) : bool :=
  match current with
  | Some l => lesson_eqb l lesson
  | None => false
  end.


(** [resetLesson]: every span of the lesson that exists gets its default
    text back. *)
Definition resetLesson (lesson : LessonKey) (page : Page) : Page :=
  let page1 := stopStepping page in
  let spans :=
    match pg_spans page1 lesson with
    | Some parts =>
        set_at (pg_spans page1) lesson
          (Some (fun part =>
                   match parts part with
                   | Some _ => Some (defaultText lesson part)
                   | None => None
                   end))
    | None => pg_spans page1
    end in
  set_counter lesson (initialCounterText lesson)
    (set_trace lesson (initialTrace lesson)
       (set_console lesson (initialConsole lesson)
          (setActivePart lesson None
             (mkPage spans (pg_active page1) (pg_next page1)
                     (pg_counter page1) (pg_trace page1) (pg_console page1)
                     (stepLesson page1) (stepEvents page1) (stepIndex page1)
                     (stepTrace page1) (stepConsole page1))))).



(** [s.replace(r, f)] with the [g] flag and a function [f] of the
    matched text, from the position [before | rest] on. *)
Fixpoint replace_fn_from (fuel : nat) (r : regex)
    (f : list ascii -> list ascii) (before rest : list ascii) : list ascii :=
  match fuel with
  | O => rest
  | S fuel' =>
      match regex_search r before rest with
      | None => rest
      | Some m =>
          let skipped :=
            firstn (List.length (m_before m) - List.length before) rest in
          let subst := f (m_matched m) in
          match m_matched m, m_after m with
          | [], [] => skipped ++ subst
          | [], c :: after =>
              skipped ++ subst ++
              c :: replace_fn_from fuel' r f (c :: m_before m) after
          | _ :: _, after =>
              skipped ++ subst ++
              replace_fn_from fuel' r f (rev (m_matched m) ++ m_before m) after
          end
      end
  end.

(** [/\s+/]. *)
Definition space_run_regex : regex := re_plus (RClass is_space).

(** The callback of [sanitiseSpan]: a run of white space that includes a
    line feed becomes one space. *)
Definition squash_run (matched : list ascii) : list ascii :=
  if existsb (Ascii.eqb newline_char) matched then [" "%char] else matched.

(** [sanitiseSpan]: the text content the span is left with. *)
Definition sanitiseSpan (content : string) : string :=
  text (replace_fn_from (S (String.length content)) space_run_regex squash_run
          [] (chars content)).

Definition part_eqb (a b : LoopPart) : bool :=
  match a, b with
  | PStart, PStart | PCondition, PCondition | PStep, PStep | PBody, PBody => true
  | _, _ => false
  end.

(** The [input] listener of the span of [part] in [lesson], once an edit
    has left [content] in it.  A listener is attached to registered
    spans only, one for each part. *)
Definition inputSpan (lesson : LessonKey) (part : LoopPart) (content : string)
    (page : Page) : Page :=
  let page1 := stopStepping page in
  let spans :=
    match pg_spans page1 lesson with
    | Some parts =>
        match parts part with
        | Some _ =>
            set_at (pg_spans page1) lesson
              (Some (fun other =>
                       if part_eqb other part then Some (sanitiseSpan content)
                       else parts other))
        | None => pg_spans page1
        end
    | None => pg_spans page1
    end in
  mkPage spans (pg_active page1) (pg_next page1)
         (pg_counter page1) (pg_trace page1) (pg_console page1)
         (stepLesson page1) (stepEvents page1) (stepIndex page1)
         (stepTrace page1) (stepConsole page1).




(** The page once the script has loaded: every lesson was reset, nothing
    is highlighted and no step sequence is under way. *)
Definition loadedPage : Page :=
  mkPage defaultSpans (fun _ => None) (fun _ => false)
         initialCounterText initialTrace initialConsole None [] 0 [] [].
(** ** Observations on built lessons *)

(** The part an event highlights and the counter it carries. *)
Definition mark (event : LessonEvent) : option LoopPart * option string :=
  (highlight event, counter event).

(** The events of a lesson, when it has been built. *)
Definition built_events (result : option (ParseResult LessonData))
    : option (list (option LoopPart * option string)) :=
  match result with
  | Some (Ok data) => Some (map mark (events data))
  | _ => None
  end.

Definition built_finalCounter (result : option (ParseResult LessonData))
    : option string :=
  match result with
  | Some (Ok data) => Some (finalCounter data)
  | _ => None
  end.


(** ** Shapes of condition fragments *)

(** Whether a captured variable holds a [$]. *)
Definition has_dollar (variable : string) : bool :=
  existsb (fun c => Ascii.eqb c "$") (chars variable).

(** What follows the variable in [conditionPattern]. *)
Definition condition_tail : regex :=
  re_seq [re_spaces;
          RGroup 1 (RAlt (re_lit "<=") (re_lit ">="));
          re_spaces;
          RGroup 2 re_signed_int;
          REnd].

(** The texts a condition fragment is made of: an identifier, runs of
    white space, a run of digits. *)
Definition is_identifier (s : string) : bool :=
  match chars s with
  | c :: l => ident_start c && forallb ident_part l
  | [] => false
  end.

Definition is_spaces (s : string) : bool := forallb is_space (chars s).

Definition is_digits (s : string) : bool :=
  negb (is_empty s) && forallb is_digit (chars s).

(** An optional minus sign and an optional trailing semicolon. *)
Definition minus_if (present : bool) : string :=
  if present then "-" else EmptyString.
Definition semicolon_if (present : bool) : string :=
  if present then ";" else EmptyString.

(** The character classes of the patterns keep apart: a character of an
    identifier is neither white space nor the start of a comparator, a
    digit is neither white space nor a minus sign nor a semicolon. *)
Definition class_facts (c : ascii) : bool :=
  implb (ident_part c)
        (negb (is_space c) && negb (Ascii.eqb c "<") && negb (Ascii.eqb c ">"))
  && implb (is_digit c)
           (negb (is_space c) && negb (Ascii.eqb c "-") && negb (Ascii.eqb c ";")).

(** Where a run over the class [p] stops: at the end of the input or
    before a character outside the class. *)
Definition stops_class (p : ascii -> bool) (rest : list ascii) : Prop :=
  match rest with c :: _ => p c = false | [] => True end.

(** The matchers that take one character of the class [p]. *)
Definition class_matcher (p : ascii -> bool) (m : matcher) : Prop :=
  forall st k,
    m st k = match ms_rest st with
             | x :: rest => if p x then k (advance x st rest) else None
             | [] => None
             end.

(** ** Statements about the sequence derivation *)


(** The first [n] terms of the arithmetic sequence from [start] by [step]. *)
Definition arith_seq (start step : Z) (n : nat) : list Z :=
  map (fun k => start + Z.of_nat k * step) (seq 0 n).

(** ** Tactics *)

(** Closed statements about concrete inputs are settled by evaluating
    the embedding. *)
Ltac by_computation :=
  repeat match goal with
         | |- _ /\ _ => split
         | |- exists _, _ => eexists
         end;
  (vm_compute; reflexivity).

(** Case analysis on the character classes of [c] under a fact [F]
    about [class_facts c]. *)
Ltac split_classes c F :=
  unfold class_facts in F;
  destruct (ident_part c), (is_space c), (is_digit c), (Ascii.eqb c "-"),
    (Ascii.eqb c ";"), (Ascii.eqb c "<"), (Ascii.eqb c ">");
  cbn [implb negb andb orb] in *; try discriminate; auto.

(** ** Statements about parses and built lessons *)




(** Whether a character occurs in a text. *)
Definition occurs (c : ascii) (s : string) : bool :=
  existsb (Ascii.eqb c) (chars s).





(** ** Statements about stepping *)








(** Reading a field of a page written by the setters. *)
Ltac page_fields :=
  cbn [pg_spans pg_active pg_next pg_counter pg_trace pg_console
       stepLesson stepEvents stepIndex stepTrace stepConsole
       setNextEnabled set_counter set_console set_trace setActivePart
       set_step same_lesson app].


(** ** Statements about texts *)

(** A backslash before each character that has a meaning in a pattern. *)
Definition escape_chars (l : list ascii) : list ascii :=
  flat_map (fun c => if is_regexp_special c then ["\"%char; c] else [c]) l.

(** ** Statements about the page *)


(** ** Well-formed loop texts *)







(** ** Well-formed array texts *)








(** * Properties *)

Example derive_1_5 :
  deriveCounterValues 1 5 CmpLe 1 = Ok (mkCounterValues [1; 2; 3; 4; 5] 6).
Proof. reflexivity. Qed.

(** ** Properties of the sequence derivation *)



Lemma derive_loop_eq chk step values current guard :
  derive_loop chk step values current guard =
  if chk current then
    if guard + 1 >? 200 then Err too_many_times
    else derive_loop chk step (values ++ [current]) (current + step) (guard + 1)
  else Ok (mkCounterValues values current).
Proof.
  assert (Hinner : forall b (e : (guard + 1 >? 200) = b),
    derive_loop_unfold_clause_1_clause_2 chk step values current guard
      (exist _ b e) =
    if b then Err too_many_times
    else derive_loop chk step (values ++ [current]) (current + step) (guard + 1)).
  { intros [] e.
    - now rewrite derive_loop_clause_1_clause_2_equation_1.
    - now rewrite derive_loop_clause_1_clause_2_equation_2. }
  rewrite derive_loop_equation_1. unfold derive_loop_unfold_clause_1.
  destruct (chk current); [|reflexivity].
  exact (Hinner _ eq_refl).
Qed.

Lemma arith_seq_S start step n :
  arith_seq start step (S n) = start :: arith_seq (start + step) step n.
Proof.
  unfold arith_seq. simpl. f_equal; [lia|].
  rewrite <- seq_shift, map_map. apply map_ext. intros k. lia.
Qed.


Lemma derive_loop_stops chk step n : forall values current guard,
  guard + Z.of_nat n <= 200 ->
  (forall k, (k < n)%nat -> chk (current + Z.of_nat k * step) = true) ->
  chk (current + Z.of_nat n * step) = false ->
  derive_loop chk step values current guard =
  Ok (mkCounterValues (values ++ arith_seq current step n)
                      (current + Z.of_nat n * step)).
Proof.
  induction n as [|n IH]; intros values current guard Hg Hpre Hstop.
  - rewrite derive_loop_eq. simpl in Hstop.
    replace (current + 0) with current in Hstop by lia. rewrite Hstop.
    unfold arith_seq. simpl. rewrite app_nil_r. do 2 f_equal. lia.
  - rewrite derive_loop_eq.
    pose proof (Hpre 0%nat ltac:(lia)) as H0. simpl in H0.
    replace (current + 0) with current in H0 by lia. rewrite H0.
    assert (Hle : (guard + 1 >? 200) = false).
    { rewrite Z.gtb_ltb. apply Z.ltb_ge. lia. }
    rewrite Hle, arith_seq_S.
    rewrite (IH (values ++ [current])%list (current + step) (guard + 1)).
    + rewrite <- app_assoc. simpl app. rewrite Nat2Z.inj_succ.
      do 2 f_equal. lia.
    + lia.
    + intros k Hk. specialize (Hpre (S k) ltac:(lia)).
      rewrite <- Hpre. f_equal. lia.
    + rewrite <- Hstop. f_equal. lia.
Qed.

Lemma derive_loop_runs_away chk step m : forall values current guard,
  guard = 200 - Z.of_nat m ->
  (forall k, (k <= m)%nat -> chk (current + Z.of_nat k * step) = true) ->
  derive_loop chk step values current guard = Err too_many_times.
Proof.
  induction m as [|m IH]; intros values current guard Hg Hall;
    rewrite derive_loop_eq;
    pose proof (Hall 0%nat ltac:(lia)) as H0; simpl in H0;
    replace (current + 0) with current in H0 by lia; rewrite H0.
  - subst guard. reflexivity.
  - assert (Hle : (guard + 1 >? 200) = false).
    { rewrite Z.gtb_ltb. apply Z.ltb_ge. lia. }
    rewrite Hle. apply IH; [lia|].
    intros k Hk. specialize (Hall (S k) ltac:(lia)).
    rewrite <- Hall. f_equal. lia.
Qed.

(** Within any bound, a boolean predicate on indices either fails first
    at some index or holds throughout. *)
Lemma first_failure_or_all (P : nat -> bool) (m : nat) :
  (exists n, (n <= m)%nat /\ (forall k, (k < n)%nat -> P k = true) /\ P n = false)
  \/ (forall k, (k <= m)%nat -> P k = true).
Proof.
  induction m as [|m [[n [Hn [Hpre Hstop]]]|Hall]].
  - destruct (P 0%nat) eqn:E.
    + right. intros k Hk. replace k with 0%nat by lia. exact E.
    + left. exists 0%nat. repeat split; [lia| |exact E]. intros k Hk. lia.
  - left. exists n. repeat split; [lia|exact Hpre|exact Hstop].
  - destruct (P (S m)) eqn:E.
    + right. intros k Hk. destruct (Nat.eq_dec k (S m)) as [->|Hne]; [exact E|].
      apply Hall. lia.
    + left. exists (S m). repeat split; [lia| |exact E].
      intros k Hk. apply Hall. lia.
Qed.




(** The numbers the loop computes stay close to its arguments: with
    arguments of magnitude below 2^45 they all stay below 2^53 in
    magnitude, the range in which the arithmetic of the source is the
    arithmetic on integers. *)
Lemma term_magnitude start step k :
  (k <= 200)%nat ->
  Z.abs (start + Z.of_nat k * step) <= Z.abs start + 200 * Z.abs step.
Proof.
  intros Hk.
  assert (Hprod : Z.abs (Z.of_nat k * step) <= 200 * Z.abs step).
  { rewrite Z.abs_mul, Z.abs_eq by lia.
    apply Z.mul_le_mono_nonneg_r; lia. }
  pose proof (Z.abs_triangle start (Z.of_nat k * step)). lia.
Qed.

Lemma deriveCounterValues_magnitudes start end_ comparator step r :
  deriveCounterValues start end_ comparator step = Ok r ->
  Forall (fun v => Z.abs v <= Z.abs start + 200 * Z.abs step)
         (cv_values r ++ [cv_next r]).
Proof.
  intros Hrun. unfold deriveCounterValues in Hrun.
  destruct (first_failure_or_all
              (fun k => check comparator end_ (start + Z.of_nat k * step)) 200)
    as [[n [Hn [Hpre Hstop]]]|Hall].
  - rewrite (derive_loop_stops _ step n [] start 0) in Hrun by (lia || assumption).
    injection Hrun as <-. cbn [cv_values cv_next app].
    apply Forall_app. split.
    + unfold arith_seq. apply Forall_forall. intros v Hv.
      apply in_map_iff in Hv as [k [<- Hk]]. apply in_seq in Hk.
      apply term_magnitude. lia.
    + constructor; [|constructor]. apply term_magnitude. exact Hn.
  - rewrite (derive_loop_runs_away _ step 200 [] start 0) in Hrun
      by (reflexivity || assumption).
    discriminate.
Qed.

Lemma deriveCounterValues_exact_range start end_ comparator step r :
  Z.abs start <= 2 ^ 45 ->
  Z.abs step <= 2 ^ 45 ->
  deriveCounterValues start end_ comparator step = Ok r ->
  Forall (fun v => Z.abs v < 2 ^ 53) (cv_values r ++ [cv_next r]).
Proof.
  intros Hstart Hstep Hrun.
  eapply Forall_impl; [|exact (deriveCounterValues_magnitudes _ _ _ _ _ Hrun)].
  intros v Hv. cbv beta in Hv.
  assert (2 ^ 45 + 200 * 2 ^ 45 < 2 ^ 53) by (vm_compute; reflexivity).
  lia.
Qed.

(** ** The default lessons *)

(** C2. The default fragments of the [for] lesson parse and give the
    visited values 1, 2, 3, 4, 5 and the final counter [i = 6]; the
    defaults of the [while] lesson, which differ by trailing semicolons,
    give the same values and the same final counter. *)
Theorem default_counter_lessons :
  defaultText LFor PStart = "let i = 1"
  /\ defaultText LFor PCondition = "i <= 5"
  /\ defaultText LFor PStep = "i = i + 1"
  /\ includes "console.log(" (defaultText LFor PBody) = true
  /\ includes "i" (defaultText LFor PBody) = true
  /\ exists parseFor parseWhile dataFor dataWhile,
       parseCounterConfig defaultSpans LFor = Ok parseFor
       /\ cc_values (cp_config parseFor) = [1; 2; 3; 4; 5]
       /\ collectLessonData defaultSpans LFor = Some (Ok dataFor)
       /\ buildCounterLessonData LFor parseFor = Some dataFor
       /\ finalCounter dataFor = "i = 6"
       /\ parseCounterConfig defaultSpans LWhile = Ok parseWhile
       /\ cc_values (cp_config parseWhile) = cc_values (cp_config parseFor)
       /\ collectLessonData defaultSpans LWhile = Some (Ok dataWhile)
       /\ buildCounterLessonData LWhile parseWhile = Some dataWhile
       /\ finalCounter dataWhile = finalCounter dataFor.
Proof.
  repeat (split; [reflexivity|]).
  do 4 eexists.
  split; [vm_compute; reflexivity|].
  split; [reflexivity|].
  split; [vm_compute; reflexivity|].
  split; [vm_compute; reflexivity|].
  split; [reflexivity|].
  split; [vm_compute; reflexivity|].
  split; [reflexivity|].
  split; [vm_compute; reflexivity|].
  split; [vm_compute; reflexivity|].
  reflexivity.
Qed.

(** ** Sign coherence *)

Lemma parseCounterConfig_staged spans lesson parts startMatch conditionMatch stepMatch :
  spans lesson = Some parts ->
  match_start (getSpanText (parts PStart)) = Some startMatch ->
  match_condition (group 1 startMatch) (getSpanText (parts PCondition))
    = Some conditionMatch ->
  match_step (group 1 startMatch) (getSpanText (parts PStep)) = Some stepMatch ->
  step_magnitude stepMatch <> 0 ->
  forall error,
    (let comparator := comparator_of (group 1 conditionMatch) in
     let stepValue := step_direction stepMatch * step_magnitude stepMatch in
     (cmp_eqb comparator CmpLe && (stepValue <=? 0) = true
      /\ error = "A <= comparison needs a positive step.")
     \/ (cmp_eqb comparator CmpLe && (stepValue <=? 0) = false
         /\ cmp_eqb comparator CmpGe && (stepValue >=? 0) = true
         /\ error = "A >= comparison needs a negative step.")) ->
    parseCounterConfig spans lesson = Err error.
Proof.
  intros Hspans Hstart Hcond Hstep Hmag error Hsign.
  unfold parseCounterConfig. rewrite Hspans. cbv zeta.
  rewrite Hstart, Hcond, Hstep.
  apply Z.eqb_neq in Hmag. rewrite Hmag.
  cbv zeta in Hsign.
  destruct Hsign as [[Hle ->]|[Hle [Hge ->]]].
  - rewrite Hle. reflexivity.
  - rewrite Hle, Hge. reflexivity.
Qed.

Lemma collectLessonData_counter_error spans lesson error :
  lesson <> LForeach ->
  parseCounterConfig spans lesson = Err error ->
  collectLessonData spans lesson = Some (Err error).
Proof.
  intros Hlesson Hparse. unfold collectLessonData.
  destruct lesson; [| |congruence]; rewrite Hparse; reflexivity.
Qed.

(** C3. When the start, condition and step fragments of a counter lesson
    are read structurally and the step magnitude is not zero: with the
    comparator [<=] and a negative step the parse fails with exactly
    "A <= comparison needs a positive step." and no lesson data is
    built; with the comparator [>=] and a positive step it fails with
    exactly "A >= comparison needs a negative step." and no lesson data
    is built. *)
Theorem sign_mismatch_fails (spans : SpanStore) (lesson : LessonKey)
    (parts : LoopPart -> option string)
    (startMatch conditionMatch stepMatch : rmatch_result) :
  lesson <> LForeach ->
  spans lesson = Some parts ->
  match_start (getSpanText (parts PStart)) = Some startMatch ->
  match_condition (group 1 startMatch) (getSpanText (parts PCondition))
    = Some conditionMatch ->
  match_step (group 1 startMatch) (getSpanText (parts PStep)) = Some stepMatch ->
  step_magnitude stepMatch <> 0 ->
  (group 1 conditionMatch = "<=" ->
   step_direction stepMatch * step_magnitude stepMatch < 0 ->
   parseCounterConfig spans lesson
     = Err "A <= comparison needs a positive step."
   /\ collectLessonData spans lesson
     = Some (Err "A <= comparison needs a positive step."))
  /\ (group 1 conditionMatch = ">=" ->
      step_direction stepMatch * step_magnitude stepMatch > 0 ->
      parseCounterConfig spans lesson
        = Err "A >= comparison needs a negative step."
      /\ collectLessonData spans lesson
        = Some (Err "A >= comparison needs a negative step.")).
Proof.
  intros Hlesson Hspans Hstart Hcond Hstep Hmag.
  pose proof (parseCounterConfig_staged spans lesson parts startMatch
                conditionMatch stepMatch Hspans Hstart Hcond Hstep Hmag)
    as Hstaged.
  split; intros Hcmp Hsign.
  - assert (Herr : parseCounterConfig spans lesson
                   = Err "A <= comparison needs a positive step.").
    { apply Hstaged. left. rewrite Hcmp. split; [|reflexivity].
      change (comparator_of "<=") with CmpLe. simpl cmp_eqb.
      apply Z.leb_le. lia. }
    split; [exact Herr|].
    apply collectLessonData_counter_error; assumption.
  - assert (Herr : parseCounterConfig spans lesson
                   = Err "A >= comparison needs a negative step.").
    { apply Hstaged. right. rewrite Hcmp.
      change (comparator_of ">=") with CmpGe. simpl cmp_eqb.
      repeat split.
      rewrite Z.geb_leb. apply Z.leb_le. lia. }
    split; [exact Herr|].
    apply collectLessonData_counter_error; assumption.
Qed.

Lemma sign_mismatch_fails_witness :
  parseCounterConfig (spans_with "let i = 5" "i <= 9" "i = i - 1" "console.log(i)") LFor
    = Err "A <= comparison needs a positive step."
  /\ collectLessonData (spans_with "let i = 5" "i >= 9" "i = i + 2;" "console.log(i)") LWhile
    = Some (Err "A >= comparison needs a negative step.").
Proof.
  split.
  - refine (proj1 (proj1 (sign_mismatch_fails
        (spans_with "let i = 5" "i <= 9" "i = i - 1" "console.log(i)") LFor
        _ _ _ _ _ eq_refl _ _ _ _) _ _)).
    + discriminate.
    + vm_compute. reflexivity.
    + vm_compute. reflexivity.
    + vm_compute. reflexivity.
    + vm_compute. discriminate.
    + vm_compute. reflexivity.
    + vm_compute. reflexivity.
  - refine (proj2 (proj2 (sign_mismatch_fails
        (spans_with "let i = 5" "i >= 9" "i = i + 2;" "console.log(i)") LWhile
        _ _ _ _ _ eq_refl _ _ _ _) _ _)).
    + discriminate.
    + vm_compute. reflexivity.
    + vm_compute. reflexivity.
    + vm_compute. reflexivity.
    + vm_compute. discriminate.
    + vm_compute. reflexivity.
    + vm_compute. reflexivity.
Defined.

(** ** The variable inside the condition pattern *)

(** C4, at the input where the code departs from it.  The start stage
    accepts the identifier [$i]; the condition fragment made of that
    identifier, [<=] and an integer is then refused by the condition
    stage, because the [$] of the variable is read as the end-of-input
    assertion of the pattern it is spliced into.  A condition on another
    identifier is refused as well. *)
Theorem condition_stage_dollar_variable :
  option_map captures (match_start "let $i = 1") = Some ("$i", "1")
  /\ match_condition "$i" "$i <= 5" = None
  /\ match_condition "$i" "$i >= -5;" = None
  /\ match_condition "$i" "i <= 5" = None
  /\ parseCounterConfig
       (spans_with "let $i = 1" "$i <= 5" "$i = $i + 1" "console.log($i)") LFor
     = Err "Could not read the condition. Keep it like $i <= 5.".
Proof. by_computation. Qed.

(** For a variable without [$], here on the defaults: a condition on
    the same identifier passes with the comparator and the integer
    captured, a condition on another identifier is refused. *)
Example condition_stage_plain_variable :
  option_map captures (match_condition "i" "i <= 5;") = Some ("<=", "5")
  /\ option_map captures (match_condition "count" "count>=-12")
     = Some (">=", "-12")
  /\ match_condition "i" "j <= 5" = None
  /\ match_condition "i" "ii <= 5" = None
  /\ parseCounterConfig
       (spans_with "let i = 1" "j <= 5" "i = i + 1" "console.log(i)") LFor
     = Err "Could not read the condition. Keep it like i <= 5.".
Proof. by_computation. Qed.

(** The refusal is not tied to one input: whatever the condition text,
    a variable that holds a [$] makes the condition stage fail, since
    nothing of the pattern after the assertion can match at the end of
    the input. *)
Lemma condition_tail_needs_input st k :
  ms_rest st = [] -> rmatch condition_tail st k = None.
Proof.
  destruct st as [before rest caps]. simpl. intros ->. reflexivity.
Qed.

Section DollarVariable.

(** What follows the variable in the pattern fails at the end of the
    input. *)
Variable K : mstate -> option mstate.
Hypothesis K_needs_input : forall st, ms_rest st = [] -> K st = None.

Lemma variable_pattern_at_end : forall l st,
  ms_rest st = [] ->
  rmatch (re_seq (map (fun c => if Ascii.eqb c "$" then REnd else RChar c) l))
         st K = None.
Proof.
  induction l as [|c l IH]; intros st Hend; simpl.
  - apply K_needs_input. exact Hend.
  - destruct (Ascii.eqb c "$"); simpl; rewrite Hend; [|reflexivity].
    apply IH. exact Hend.
Qed.

Lemma variable_pattern_with_dollar : forall l st,
  existsb (fun c => Ascii.eqb c "$") l = true ->
  rmatch (re_seq (map (fun c => if Ascii.eqb c "$" then REnd else RChar c) l))
         st K = None.
Proof.
  induction l as [|c l IH]; intros st Hdollar; simpl in *.
  - discriminate.
  - destruct (Ascii.eqb c "$"); simpl.
    + destruct (ms_rest st) eqn:Hrest; [|reflexivity].
      apply variable_pattern_at_end; assumption.
    + destruct (ms_rest st) as [|x rest]; [reflexivity|].
      destruct (Ascii.eqb x c); [|reflexivity].
      apply IH. exact Hdollar.
Qed.

End DollarVariable.

Lemma regex_search_none r : forall rest before,
  (forall st, rmatch r st Some = None) ->
  regex_search r before rest = None.
Proof.
  induction rest as [|c rest IH]; intros before Hnone; simpl; rewrite Hnone.
  - reflexivity.
  - apply IH. exact Hnone.
Qed.

Lemma condition_stage_refuses_dollar_variables variable conditionText :
  has_dollar variable = true ->
  match_condition variable conditionText = None.
Proof.
  intros Hdollar. unfold match_condition, str_match.
  apply regex_search_none. intros st.
  change (conditionPattern variable)
    with (RSeq RBegin (RSeq (pattern_of_variable variable) condition_tail)).
  simpl. destruct (ms_before st); [|reflexivity].
  apply variable_pattern_with_dollar; [|exact Hdollar].
  intros st' Hend. apply condition_tail_needs_input. exact Hend.
Qed.

Lemma parseCounterConfig_dollar_variable spans lesson parts startMatch :
  spans lesson = Some parts ->
  match_start (getSpanText (parts PStart)) = Some startMatch ->
  has_dollar (group 1 startMatch) = true ->
  parseCounterConfig spans lesson
  = Err ("Could not read the condition. Keep it like "
         ++ group 1 startMatch ++ " <= 5.").
Proof.
  intros Hspans Hstart Hdollar. unfold parseCounterConfig.
  rewrite Hspans. cbv zeta. rewrite Hstart.
  rewrite condition_stage_refuses_dollar_variables by exact Hdollar.
  reflexivity.
Qed.

(** For a variable without [$] the condition stage reads the variable
    as itself.  The lemmas below follow the matcher along the one path
    it takes on a text made of the variable, a comparator and an
    integer. *)

Lemma chars_app s1 s2 : chars (s1 ++ s2) = (chars s1 ++ chars s2)%list.
Proof.
  unfold chars. induction s1 as [|c s1 IH]; simpl; [reflexivity|].
  now rewrite IH.
Qed.

Lemma text_chars s : text (chars s) = s.
Proof. apply string_of_list_ascii_of_string. Qed.

Lemma chars_text l : chars (text l) = l.
Proof. apply list_ascii_of_string_of_list_ascii. Qed.


Lemma class_facts_hold (c : ascii) : class_facts c = true.
Proof. destruct c as [[] [] [] [] [] [] [] []]; reflexivity. Qed.

Lemma ident_part_plain c :
  ident_part c = true ->
  is_space c = false /\ Ascii.eqb c "<" = false /\ Ascii.eqb c ">" = false.
Proof.
  intros H. pose proof (class_facts_hold c) as F. split_classes c F.
Qed.

Lemma is_digit_plain c :
  is_digit c = true ->
  is_space c = false /\ Ascii.eqb c "-" = false /\ Ascii.eqb c ";" = false.
Proof.
  intros H. pose proof (class_facts_hold c) as F. split_classes c F.
Qed.

Lemma semicolon_search_last : forall l before,
  regex_search semicolon_end_regex before (l ++ [";"%char])
  = Some (mkMatch (rev l ++ before) [";"%char] [] []).
Proof.
  induction l as [|c l IH]; intros before; [reflexivity|].
  assert (Hhere : rmatch semicolon_end_regex
                    (mkState before (c :: l ++ [";"%char]) []) Some = None).
  { simpl. destruct (Ascii.eqb c ";"); [|reflexivity]. destruct l; reflexivity. }
  cbn [app regex_search]. rewrite Hhere, IH. simpl. rewrite <- app_assoc.
  reflexivity.
Qed.

Lemma semicolon_search_none : forall l d before,
  Ascii.eqb d ";" = false ->
  regex_search semicolon_end_regex before (l ++ [d]) = None.
Proof.
  induction l as [|c l IH]; intros d before Hd.
  - simpl. rewrite Hd. reflexivity.
  - assert (Hhere : rmatch semicolon_end_regex
                      (mkState before (c :: l ++ [d]) []) Some = None).
    { simpl. destruct (Ascii.eqb c ";"); [|reflexivity]. destruct l; reflexivity. }
    cbn [app regex_search]. rewrite Hhere. apply IH. exact Hd.
Qed.

Lemma strip_semicolon_present s : strip_semicolon (s ++ ";") = s.
Proof.
  unfold strip_semicolon, str_replace. rewrite chars_app.
  change (chars ";") with [";"%char]. cbn [replace_from].
  rewrite semicolon_search_last. cbn [m_before m_matched m_after].
  change (chars EmptyString) with (@nil ascii). cbn [get_substitution].
  rewrite !app_nil_r, length_rev. cbn [List.length]. rewrite Nat.sub_0_r.
  rewrite firstn_app, Nat.sub_diag, firstn_all. cbn [firstn].
  rewrite app_nil_r. apply text_chars.
Qed.

Lemma strip_semicolon_absent s d :
  Ascii.eqb d ";" = false ->
  strip_semicolon (s ++ String d EmptyString) = s ++ String d EmptyString.
Proof.
  intros Hd. unfold strip_semicolon, str_replace. rewrite chars_app.
  change (chars (String d EmptyString)) with [d]. cbn [replace_from].
  rewrite semicolon_search_none by exact Hd.
  rewrite <- (text_chars (s ++ String d EmptyString)), chars_app. reflexivity.
Qed.


Lemma rmatch_class_matcher p : class_matcher p (rmatch (RClass p)).
Proof. intros st k. reflexivity. Qed.

(** A greedy run over a class stops where the class stops. *)
Section ClassRun.

Variable p : ascii -> bool.
Variable m : matcher.
Hypothesis m_takes_class : class_matcher p m.

Lemma star_class_none K fuel st :
  stops_class p (ms_rest st) ->
  star_turns true m K fuel st = K st.
Proof.
  intros Hstop. destruct fuel; [reflexivity|]. cbn [star_turns].
  rewrite m_takes_class. destruct (ms_rest st) as [|c rest]; [reflexivity|].
  simpl in Hstop. rewrite Hstop. reflexivity.
Qed.

Lemma star_class_run K final : forall run before rest caps fuel,
  forallb p run = true ->
  stops_class p rest ->
  (List.length (run ++ rest) <= fuel)%nat ->
  K (mkState (rev run ++ before) rest caps) = Some final ->
  star_turns true m K fuel (mkState before (run ++ rest) caps) = Some final.
Proof.
  induction run as [|c run IH]; intros before rest caps fuel Hrun Hstop Hfuel HK.
  - cbn [app rev] in *. rewrite star_class_none by assumption. exact HK.
  - destruct fuel as [|fuel]; [simpl in Hfuel; lia|].
    simpl in Hrun. apply andb_prop in Hrun as [Hc Hrun].
    cbn [star_turns app]. rewrite m_takes_class. cbn [ms_rest]. rewrite Hc.
    unfold advance. cbn [ms_rest ms_before ms_caps].
    assert (Hlt : (List.length (run ++ rest) <? List.length (c :: run ++ rest))%nat
                  = true) by (apply Nat.ltb_lt; simpl; lia).
    rewrite Hlt. rewrite (IH (c :: before) rest caps fuel); try assumption.
    + reflexivity.
    + simpl in Hfuel. lia.
    + simpl in HK. rewrite <- app_assoc in HK. exact HK.
Qed.

End ClassRun.


Lemma rmatch_spaces_none K st :
  stops_class is_space (ms_rest st) ->
  rmatch re_spaces st K = K st.
Proof.
  intros Hstop. unfold re_spaces.
  change (rmatch (RStar true (RClass is_space)) st K)
    with (star_turns true (rmatch (RClass is_space)) K
                     (List.length (ms_rest st)) st).
  apply (star_class_none is_space _ (rmatch_class_matcher is_space)).
  exact Hstop.
Qed.





Lemma rmatch_seq r1 r2 st k :
  rmatch (RSeq r1 r2) st k = rmatch r1 st (fun st' => rmatch r2 st' k).
Proof. reflexivity. Qed.

Lemma rmatch_begin rest caps k :
  rmatch RBegin (mkState [] rest caps) k = k (mkState [] rest caps).
Proof. reflexivity. Qed.


Lemma is_digits_chars digits :
  is_digits digits = true ->
  exists d ds, chars digits = d :: ds /\ forallb is_digit (d :: ds) = true.
Proof.
  unfold is_digits. destruct digits as [|d ds]; [discriminate|].
  intros H. exists d, (chars ds). split; [reflexivity|exact H].
Qed.



Lemma strip_semicolon_text_present l :
  strip_semicolon (text (l ++ [";"%char])) = text l.
Proof.
  rewrite <- (strip_semicolon_present (text l)). f_equal.
  rewrite <- (text_chars (text l ++ ";")), chars_app, chars_text. reflexivity.
Qed.

Lemma strip_semicolon_text_absent l d :
  Ascii.eqb d ";" = false ->
  strip_semicolon (text (l ++ [d])) = text (l ++ [d]).
Proof.
  intros Hd.
  assert (Heq : text (l ++ [d]) = text l ++ String d EmptyString).
  { rewrite <- (text_chars (text l ++ String d EmptyString)), chars_app, chars_text.
    reflexivity. }
  rewrite Heq. apply strip_semicolon_absent. exact Hd.
Qed.

Lemma strip_semicolon_digits l number (semicolon : bool) :
  number <> [] ->
  forallb is_digit number = true ->
  strip_semicolon (text (l ++ number ++ chars (semicolon_if semicolon)))
  = text (l ++ number).
Proof.
  intros Hne Hdigits. destruct semicolon; cbn [semicolon_if].
  - change (chars ";") with [";"%char]. rewrite !app_assoc.
    apply strip_semicolon_text_present.
  - change (chars EmptyString) with (@nil ascii). rewrite app_nil_r.
    destruct (exists_last Hne) as [front [d Hlast]]. rewrite Hlast in *.
    rewrite forallb_app in Hdigits. apply andb_prop in Hdigits as [_ Hd].
    simpl in Hd. rewrite andb_true_r in Hd.
    rewrite app_assoc. apply strip_semicolon_text_absent.
    apply (is_digit_plain d Hd).
Qed.


(** Another identifier in the condition is refused. *)
Lemma regex_search_not_at_start r : forall rest c before,
  regex_search (RSeq RBegin r) (c :: before) rest = None.
Proof.
  induction rest as [|x rest IH]; intros c before; [reflexivity|].
  cbn [regex_search]. rewrite rmatch_seq. cbn [rmatch ms_before]. apply IH.
Qed.

Lemma regex_search_anchored_none r rest :
  rmatch (RSeq RBegin r) (mkState [] rest []) Some = None ->
  regex_search (RSeq RBegin r) [] rest = None.
Proof.
  intros Hfirst. destruct rest as [|c rest]; cbn [regex_search]; rewrite Hfirst.
  - reflexivity.
  - apply regex_search_not_at_start.
Qed.

Lemma ident_start_part c : ident_start c = true -> ident_part c = true.
Proof.
  unfold ident_start, ident_part, is_word.
  destruct (is_letter c), (is_digit c), (Ascii.eqb c "_"), (Ascii.eqb c "$");
    simpl; congruence.
Qed.

Lemma is_identifier_chars s :
  is_identifier s = true -> forallb ident_part (chars s) = true.
Proof.
  unfold is_identifier. destruct (chars s) as [|c l]; [discriminate|].
  intros H. apply andb_prop in H as [Hc Hl]. simpl.
  rewrite (ident_start_part c Hc). exact Hl.
Qed.

Lemma condition_tail_refuses_identifier before c rest caps K :
  ident_part c = true ->
  rmatch condition_tail (mkState before (c :: rest) caps) K = None.
Proof.
  intros Hc. destruct (ident_part_plain c Hc) as [Hspace [Hlt Hgt]].
  unfold condition_tail. cbn [re_seq fold_right].
  rewrite rmatch_seq, rmatch_spaces_none by exact Hspace.
  rewrite rmatch_seq. simpl. rewrite Hlt, Hgt. reflexivity.
Qed.

Lemma variable_mismatch (K : mstate -> option mstate) h tail :
  ident_part h = false ->
  (forall before c rest caps,
      ident_part c = true -> K (mkState before (c :: rest) caps) = None) ->
  forall V W before caps,
    existsb (fun c => Ascii.eqb c "$") V = false ->
    forallb ident_part V = true ->
    forallb ident_part W = true ->
    V <> W ->
    rmatch (re_seq (map (fun c => if Ascii.eqb c "$" then REnd else RChar c) V))
           (mkState before (W ++ h :: tail) caps) K = None.
Proof.
  intros Hh HK.
  induction V as [|a V IH]; intros W before caps Hplain HV HW Hne.
  - destruct W as [|c W]; [congruence|].
    simpl in HW. apply andb_prop in HW as [Hc _].
    cbn [map re_seq fold_right rmatch app]. apply HK. exact Hc.
  - simpl in Hplain. apply orb_false_elim in Hplain as [Ha Hplain].
    simpl in HV. apply andb_prop in HV as [Hia HV].
    cbn [map re_seq fold_right]. rewrite Ha, rmatch_seq.
    destruct W as [|b W]; cbn [app rmatch ms_rest].
    + destruct (Ascii.eqb_spec h a) as [->|_]; [congruence|reflexivity].
    + simpl in HW. apply andb_prop in HW as [_ HW].
      destruct (Ascii.eqb_spec b a) as [->|_]; [|reflexivity].
      unfold advance. cbn [ms_before ms_caps].
      apply IH; try assumption. congruence.
Qed.

Lemma fragment_starts_outside_identifiers S1 comparator rest :
  forallb is_space S1 = true ->
  exists h tail,
    (S1 ++ chars (comparator_text comparator) ++ rest)%list = h :: tail
    /\ ident_part h = false.
Proof.
  intros HS1. destruct S1 as [|s S1].
  - destruct comparator; eexists; eexists; split; reflexivity.
  - exists s; eexists. split; [reflexivity|].
    simpl in HS1. apply andb_prop in HS1 as [Hs _].
    destruct (ident_part s) eqn:E; [|reflexivity].
    destruct (ident_part_plain s E) as [Hspace _]. congruence.
Qed.

Lemma condition_stage_refuses_other_identifier
    (variable other sp1 sp2 digits : string) (comparator : Comparator)
    (negative semicolon : bool) :
  is_identifier variable = true ->
  is_identifier other = true ->
  other <> variable ->
  is_spaces sp1 = true ->
  is_spaces sp2 = true ->
  is_digits digits = true ->
  match_condition variable
    (other ++ sp1 ++ comparator_text comparator ++ sp2
     ++ minus_if negative ++ digits ++ semicolon_if semicolon)
  = None.
Proof.
  intros Hvar Hother Hne Hsp1 Hsp2 Hdigits.
  destruct (has_dollar variable) eqn:Hdollar;
    [apply condition_stage_refuses_dollar_variables; exact Hdollar|].
  destruct (is_digits_chars digits Hdigits) as [d [ds [Hchars Hall]]].
  unfold match_condition.
  rewrite <- (text_chars (other ++ _)), !chars_app.
  pose proof (strip_semicolon_digits
                (chars other ++ chars sp1
                 ++ chars (comparator_text comparator) ++ chars sp2
                 ++ chars (minus_if negative))
                (chars digits) semicolon) as Hstrip.
  rewrite <- !app_assoc in Hstrip. rewrite Hstrip; clear Hstrip.
  2: rewrite Hchars; discriminate.
  2: rewrite Hchars; exact Hall.
  unfold str_match. rewrite chars_text.
  change (conditionPattern variable)
    with (RSeq RBegin (RSeq (pattern_of_variable variable) condition_tail)).
  apply regex_search_anchored_none.
  rewrite rmatch_seq, rmatch_begin. cbv beta. rewrite rmatch_seq.
  destruct (fragment_starts_outside_identifiers (chars sp1) comparator
              (chars sp2 ++ chars (minus_if negative) ++ chars digits) Hsp1)
    as [h [tail [Hfragment Hh]]].
  rewrite Hfragment. unfold pattern_of_variable.
  apply variable_mismatch; try assumption.
  - intros before c rest caps Hc.
    apply condition_tail_refuses_identifier. exact Hc.
  - apply is_identifier_chars. exact Hvar.
  - apply is_identifier_chars. exact Hother.
  - intros Heq. apply Hne.
    rewrite <- (text_chars other), <- (text_chars variable), Heq. reflexivity.
Qed.

(** ** The statement templater *)

(** C5. [console.log("Hello", i)] with [i] bound to 3 prints [Hello 3],
    and [console.log(i + 1)] with [i] bound to 4 prints [5]. *)
Theorem formatConsoleStatement_examples :
  formatConsoleStatement
    ("console.log(" ++ dquote ++ "Hello" ++ dquote ++ ", i)") [("i", "3")]
    = Some "Hello 3"
  /\ formatConsoleStatement "console.log(i + 1)" [("i", "4")] = Some "5".
Proof. by_computation. Qed.






(** ** Quoted spans in the argument splitter *)

(** C7 as stated fails.  Take the seven characters: double quote, [a],
    backslash, double quote, comma, [b], double quote.  The double quote
    at index 3 follows a backslash inside the span opened at index 0,
    and the span is still open after it: the comma that follows does
    not split, and the whole text is one argument.  Without the
    backslash the span ends at the second double quote and the comma
    splits. *)
Lemma escaped_quote_counterexample :
  char_at (dquote ++ "a\" ++ dquote ++ ",b" ++ dquote) 3 = Some dquote_char
  /\ char_before (dquote ++ "a\" ++ dquote ++ ",b" ++ dquote) 3 = Some "\"%char
  /\ sp_quote (split_loop 3 (dquote ++ "a\" ++ dquote ++ ",b" ++ dquote) 0 split_init)
     = Some dquote_char
  /\ sp_quote (split_loop 4 (dquote ++ "a\" ++ dquote ++ ",b" ++ dquote) 0 split_init)
     = Some dquote_char
  /\ splitArguments (dquote ++ "a\" ++ dquote ++ ",b" ++ dquote)
     = [dquote ++ "a\" ++ dquote ++ ",b" ++ dquote]
  /\ splitArguments (dquote ++ "a" ++ dquote ++ ",b" ++ dquote)
     = [dquote ++ "a" ++ dquote; "b" ++ dquote].
Proof. by_computation. Qed.

Lemma split_loop_last value : forall n i st,
  split_loop (S n) value i st = split_step value (i + n) (split_loop n value i st).
Proof.
  induction n as [|n IH]; intros i st.
  - simpl. rewrite Nat.add_0_r. reflexivity.
  - change (split_loop (S (S n)) value i st)
      with (split_loop (S n) value (S i) (split_step value i st)).
    rewrite IH. simpl. rewrite <- plus_n_Sm. reflexivity.
Qed.

Lemma split_step_in_span value i st quote :
  sp_quote st = Some quote ->
  char_at value i = Some quote ->
  sp_quote (split_step value i st)
  = if is_backslash (char_before value i) then Some quote else None.
Proof.
  intros Hquote Hchar. unfold split_step. rewrite Hchar, Hquote.
  rewrite Ascii.eqb_refl. simpl andb.
  destruct (is_backslash (char_before value i)); reflexivity.
Qed.

(** C7, amended.  When the scanner of [splitArguments] reaches, inside a
    quoted span, an occurrence of the opening quote character: right
    after a backslash the occurrence does not close the span; after
    anything else it does. *)
Theorem escaped_quote_keeps_span_open (value : string) (i : nat) (quote : ascii) :
  sp_quote (split_loop i value 0 split_init) = Some quote ->
  char_at value i = Some quote ->
  (char_before value i = Some "\"%char ->
   sp_quote (split_loop (S i) value 0 split_init) = Some quote)
  /\ (char_before value i <> Some "\"%char ->
      sp_quote (split_loop (S i) value 0 split_init) = None).
Proof.
  intros Hquote Hchar. rewrite split_loop_last. cbn [Nat.add].
  rewrite (split_step_in_span value i _ quote Hquote Hchar). split.
  - intros Hprev. rewrite Hprev. reflexivity.
  - intros Hprev. destruct (char_before value i) as [b|]; [|reflexivity].
    simpl. destruct (Ascii.eqb_spec b "\"%char) as [->|Hne]; [congruence|reflexivity].
Qed.

Lemma escaped_quote_keeps_span_open_witness :
  sp_quote (split_loop 4 "'a\'b', c" 0 split_init) = Some "'"%char
  /\ sp_quote (split_loop 6 "'a\'b', c" 0 split_init) = None.
Proof.
  split.
  - apply (proj1 (escaped_quote_keeps_span_open "'a\'b', c" 3 "'"%char
                    eq_refl eq_refl)).
    reflexivity.
  - apply (proj2 (escaped_quote_keeps_span_open "'a\'b', c" 5 "'"%char
                    eq_refl eq_refl)).
    vm_compute. discriminate.
Defined.

(** ** The iteration lesson *)

(** C8. The defaults of the [forEach] lesson, the array literal
    [[2, 4, 6]] with the default body, parse to the values 2, 4, 6, and
    the lesson built from them has, after its start event, exactly three
    groups of a condition, a body and a step event, the condition and
    body counters reading [index = 0 (value 2)], [index = 1 (value 4)]
    and [index = 2 (value 6)], then the closing condition event and the
    terminal event; the final counter is [index = 3 (done)]. *)
Theorem default_foreach_lesson :
  includes "[2, 4, 6]" (defaultText LForeach PStart) = true
  /\ option_map
       (fun result =>
          match result with
          | Ok parse => fc_values (fp_config parse)
          | Err _ => []
          end)
       (parseForEachConfig defaultSpans) = Some [2; 4; 6]
  /\ built_events (collectLessonData defaultSpans LForeach)
     = Some [(Some PStart, Some "index = -- (value --)");
             (Some PCondition, Some "index = 0 (value 2)");
             (Some PBody, Some "index = 0 (value 2)");
             (Some PStep, Some "index = 1 (value 4)");
             (Some PCondition, Some "index = 1 (value 4)");
             (Some PBody, Some "index = 1 (value 4)");
             (Some PStep, Some "index = 2 (value 6)");
             (Some PCondition, Some "index = 2 (value 6)");
             (Some PBody, Some "index = 2 (value 6)");
             (Some PStep, Some "index = 3 (done)");
             (Some PCondition, Some "index = 3 (done)");
             (None, Some "index = 3 (done)")]
  /\ built_finalCounter (collectLessonData defaultSpans LForeach)
     = Some "index = 3 (done)".
Proof. by_computation. Qed.







(** ** The declarator prefix of the start pattern *)

(** C10. The declarator of the start pattern need not be followed by
    white space, so an identifier that begins with a declarator keyword
    is split: [constant = 5] is read as the variable [ant] with the
    start value 5, and [leti = 1] as the variable [i]. *)
Theorem declarator_prefix_splits_identifier :
  option_map captures (match_start "constant = 5") = Some ("ant", "5")
  /\ option_map captures (match_start "leti = 1") = Some ("i", "1")
  /\ parseCounterConfig
       (spans_with "constant = 5" "ant <= 7" "ant = ant + 1" "console.log(ant)")
       LFor
     = Ok (mkCounterParse
             (mkCounterConfig "ant" 5 CmpLe 7 1 [5; 6; 7] 8 "Looping is learning")
             (mkTexts "constant = 5" "ant <= 7" "ant = ant + 1" "console.log(ant)"))
  /\ parseCounterConfig
       (spans_with "constant = 5" "constant <= 7" "constant = constant + 1"
                   "console.log(constant)")
       LFor
     = Err "Could not read the condition. Keep it like ant <= 5."
  /\ parseCounterConfig
       (spans_with "leti = 1" "i <= 2" "i = i + 1" "console.log(i)") LWhile
     = Ok (mkCounterParse
             (mkCounterConfig "i" 1 CmpLe 2 1 [1; 2] 3 "Looping is learning")
             (mkTexts "leti = 1" "i <= 2" "i = i + 1" "console.log(i)")).
Proof. by_computation. Qed.

(** * Further properties *)

(** ** What a successful derivation returns *)




(** ** What a successful counter parse holds *)




(** ** The messages of a failed counter parse *)



(** ** What a successful array parse holds *)




(** ** An array text without brackets *)

Lemma array_regex_needs_open : forall rest before,
  existsb (Ascii.eqb "[") rest = false ->
  regex_search array_regex before rest = None.
Proof.
  induction rest as [|c rest IH]; intros before Hnone; [reflexivity|].
  cbn [existsb] in Hnone. apply orb_false_elim in Hnone as [Hc Hrest].
  cbn [regex_search]. unfold array_regex at 1. cbn [re_seq fold_right].
  rewrite rmatch_seq. cbn [rmatch ms_rest].
  rewrite Ascii.eqb_sym, Hc. apply IH. exact Hrest.
Qed.

Lemma any_run_needs_close (K : mstate -> option mstate) :
  (forall st, existsb (Ascii.eqb "]") (ms_rest st) = false -> K st = None) ->
  forall fuel st,
  existsb (Ascii.eqb "]") (ms_rest st) = false ->
  star_turns true (rmatch (RClass re_any)) K fuel st = None.
Proof.
  intros Hclose.
  induction fuel as [|fuel IH]; intros st Hnone; cbn [star_turns].
  - apply Hclose. exact Hnone.
  - specialize (Hclose st Hnone).
    cbn [rmatch].
    destruct (ms_rest st) as [|x rest] eqn:Hrest; [exact Hclose|].
    cbn [existsb] in Hnone. apply orb_false_elim in Hnone as [Hx Hnone].
    destruct (re_any x); [|exact Hclose].
    unfold advance at 1. cbn [ms_rest].
    destruct (List.length rest <? List.length (x :: rest))%nat; [|exact Hclose].
    rewrite IH by exact Hnone. exact Hclose.
Qed.

Lemma array_regex_needs_close : forall rest before,
  existsb (Ascii.eqb "]") rest = false ->
  regex_search array_regex before rest = None.
Proof.
  assert (Hhere : forall rest before,
             existsb (Ascii.eqb "]") rest = false ->
             rmatch array_regex (mkState before rest []) Some = None).
  { intros rest before Hnone. unfold array_regex. cbn [re_seq fold_right].
    rewrite rmatch_seq. cbn [rmatch ms_rest].
    destruct rest as [|c rest]; [reflexivity|].
    destruct (Ascii.eqb c "["); [|reflexivity].
    cbn [existsb] in Hnone. apply orb_false_elim in Hnone as [_ Hnone].
    apply any_run_needs_close; [|exact Hnone].
    intros st Hst. destruct (ms_rest st) as [|x tail]; [reflexivity|].
    cbn [existsb] in Hst. apply orb_false_elim in Hst as [Hx _].
    rewrite Ascii.eqb_sym, Hx. reflexivity. }
  induction rest as [|c rest IH]; intros before Hnone.
  - cbn [regex_search]. rewrite Hhere by exact Hnone. reflexivity.
  - cbn [regex_search]. rewrite Hhere by exact Hnone.
    cbn [existsb] in Hnone. apply orb_false_elim in Hnone as [_ Hnone].
    apply IH. exact Hnone.
Qed.

(** X5.  [parseForEachConfig] (src/main.js, lines 1384-1401): a
    declaration that holds no opening bracket, or no closing bracket,
    is refused with the array message, whatever else it holds. *)
Theorem parseForEachConfig_needs_brackets (spans : SpanStore)
    (parts : LoopPart -> option string) :
  spans LForeach = Some parts ->
  occurs "[" (getSpanText (parts PStart)) = false \/
  occurs "]" (getSpanText (parts PStart)) = false ->
  parseForEachConfig spans
  = Some (Err "Could not read the array. Keep it like const values = [1, 2, 3];").
Proof.
  intros Hparts Hmissing. unfold parseForEachConfig. rewrite Hparts.
  unfold str_match.
  assert (Hsearch : regex_search array_regex [] (chars (getSpanText (parts PStart))) = None).
  { destruct Hmissing as [Hopen | Hclose].
    - apply array_regex_needs_open. exact Hopen.
    - apply array_regex_needs_close. exact Hclose. }
  rewrite Hsearch. reflexivity.
Qed.

Lemma parseForEachConfig_needs_brackets_witness :
  parseForEachConfig (spans_with "const values = 1, 2, 3];" "values" "value" "console.log(value)")
  = Some (Err "Could not read the array. Keep it like const values = [1, 2, 3];").
Proof.
  apply (parseForEachConfig_needs_brackets _
           (fun part =>
              Some match part with
                   | PStart => "const values = 1, 2, 3];"
                   | PCondition => "values"
                   | PStep => "value"
                   | PBody => "console.log(value)"
                   end)).
  - reflexivity.
  - left. reflexivity.
Defined.
(** ** The shape of a built lesson *)















(** ** The counter of a counter lesson *)






(** ** The texts of a built lesson *)











(** ** Stepping through a lesson *)

Lemma lesson_eqb_refl lesson : lesson_eqb lesson lesson = true.
Proof. destruct lesson; reflexivity. Qed.

Lemma lesson_eqb_eq a b : lesson_eqb a b = true -> a = b.
Proof. destruct a, b; (reflexivity || discriminate). Qed.








(** What [stopStepping] leaves. *)
Lemma stopStepping_fields page :
  let page' := stopStepping page in
  pg_spans page' = pg_spans page
  /\ pg_counter page' = pg_counter page
  /\ pg_trace page' = pg_trace page
  /\ pg_console page' = pg_console page
  /\ (forall l, pg_next page' l = false)
  /\ (forall l,
        pg_active page' l
        = if same_lesson (stepLesson page) l then None else pg_active page l)
  /\ stepLesson page' = None
  /\ stepEvents page' = []
  /\ stepIndex page' = 0%nat
  /\ stepTrace page' = []
  /\ stepConsole page' = [].
Proof.
  unfold stopStepping. destruct (stepLesson page) as [current|]; cbn;
    repeat split; try reflexivity.
  intros l. unfold set_at. destruct current, l; reflexivity.
Qed.






(** ** In the middle of a sequence *)









(** ** The Next buttons and the step sequence *)










(** ** Reset *)

(** A lesson is built from the trimmed texts of its own four spans. *)
Lemma collectLessonData_texts_only spans spans' lesson parts parts' :
  spans lesson = Some parts ->
  spans' lesson = Some parts' ->
  (forall part, getSpanText (parts part) = getSpanText (parts' part)) ->
  collectLessonData spans lesson = collectLessonData spans' lesson.
Proof.
  intros Hparts Hparts' Hsame.
  assert (Hcounter : parseCounterConfig spans lesson
                     = parseCounterConfig spans' lesson).
  { unfold parseCounterConfig. rewrite Hparts, Hparts', !Hsame. reflexivity. }
  unfold collectLessonData. destruct lesson; rewrite ?Hcounter; try reflexivity.
  unfold parseForEachConfig. rewrite Hparts, Hparts', !Hsame. reflexivity.
Qed.

(** X16.  [resetLesson] (src/main.js, lines 1110-1126): Reset repairs a
    lesson.  When the four spans of the lesson are on the page, then
    whatever they held and whatever was shown, after Reset the lesson
    that is built is the one of the default texts, the three boxes of
    the lesson hold their initial texts, nothing is highlighted in it,
    no sequence is under way, and the spans of the other lessons are
    untouched. *)
Theorem resetLesson_restores (page : Page) (lesson : LessonKey)
    (parts : LoopPart -> option string) :
  pg_spans page lesson = Some parts ->
  (forall part, parts part <> None) ->
  let page' := resetLesson lesson page in
  collectLessonData (pg_spans page') lesson = collectLessonData defaultSpans lesson
  /\ (forall other, other <> lesson -> pg_spans page' other = pg_spans page other)
  /\ pg_counter page' lesson = initialCounterText lesson
  /\ pg_trace page' lesson = initialTrace lesson
  /\ pg_console page' lesson = initialConsole lesson
  /\ pg_active page' lesson = None
  /\ stepLesson page' = None
  /\ (forall l, pg_next page' l = false).
Proof.
  intros Hparts Hall page'.
  destruct (stopStepping_fields page)
    as (Hs0 & _ & _ & _ & Hn0 & _ & Hsl0 & _).
  cbv zeta in Hs0, Hn0, Hsl0.
  assert (Hspans : pg_spans page'
                   = set_at (pg_spans page) lesson
                       (Some (fun part =>
                                match parts part with
                                | Some _ => Some (defaultText lesson part)
                                | None => None
                                end))).
  { unfold page', resetLesson. cbv zeta. page_fields.
    rewrite Hs0, Hparts. reflexivity. }
  split; [|split; [|split; [|split; [|split; [|split; [|split]]]]]].
  - eapply collectLessonData_texts_only.
    + rewrite Hspans. unfold set_at. rewrite lesson_eqb_refl. reflexivity.
    + reflexivity.
    + intros part. cbv beta. specialize (Hall part).
      destruct (parts part); [reflexivity|congruence].
  - intros other Hother. rewrite Hspans. unfold set_at.
    destruct (lesson_eqb other lesson) eqn:Heq; [|reflexivity].
    apply lesson_eqb_eq in Heq. congruence.
  - unfold page', resetLesson. cbv zeta. page_fields.
    unfold set_at. now rewrite lesson_eqb_refl.
  - unfold page', resetLesson. cbv zeta. page_fields.
    unfold set_at. now rewrite lesson_eqb_refl.
  - unfold page', resetLesson. cbv zeta. page_fields.
    unfold set_at. now rewrite lesson_eqb_refl.
  - unfold page', resetLesson. cbv zeta. page_fields.
    unfold set_at. now rewrite lesson_eqb_refl.
  - unfold page', resetLesson. cbv zeta. page_fields. exact Hsl0.
  - intros l. unfold page', resetLesson. cbv zeta. page_fields. apply Hn0.
Qed.

Lemma resetLesson_restores_witness :
  let edited :=
    inputSpan LFor PCondition "i <= many" loadedPage in
  collectLessonData (pg_spans edited) LFor
  = Some (Err "Could not read the condition. Keep it like i <= 5.")
  /\ collectLessonData (pg_spans (resetLesson LFor edited)) LFor
     = collectLessonData defaultSpans LFor.
Proof.
  split; [vm_compute; reflexivity|].
  eapply (resetLesson_restores (inputSpan LFor PCondition "i <= many" loadedPage)
            LFor).
  - vm_compute. reflexivity.
  - intros part. destruct part; discriminate.
Defined.

(** ** The lessons are apart *)








(** ** Trimmed texts *)

Lemma drop_space_stops : forall l, stops_class is_space (drop_space l).
Proof.
  induction l as [|c l IH]; [exact I|].
  cbn [drop_space]. destruct (is_space c) eqn:Hc; [exact IH|exact Hc].
Qed.

Lemma drop_space_fixed l : stops_class is_space l -> drop_space l = l.
Proof.
  destruct l as [|c l]; [reflexivity|]. cbn [stops_class drop_space].
  intros Hc. now rewrite Hc.
Qed.

Lemma drop_space_keeps_last : forall l c,
  is_space c = false -> exists kept, drop_space (l ++ [c]) = (kept ++ [c])%list.
Proof.
  induction l as [|x l IH]; intros c Hc.
  - exists []. cbn [app drop_space]. now rewrite Hc.
  - cbn [app drop_space]. destruct (is_space x).
    + apply IH. exact Hc.
    + exists (x :: l). reflexivity.
Qed.

(** The characters of a trimmed text start and end outside white space. *)
Lemma trim_stops s :
  stops_class is_space (chars (trim s))
  /\ stops_class is_space (rev (chars (trim s))).
Proof.
  unfold trim. rewrite chars_text. split.
  - pose proof (drop_space_stops (chars s)) as Hhead.
    destruct (drop_space (chars s)) as [|c l]; [exact I|].
    cbn [stops_class] in Hhead. cbn [rev].
    destruct (drop_space_keeps_last (rev l) c Hhead) as [kept ->].
    rewrite rev_app_distr. exact Hhead.
  - rewrite rev_involutive. apply drop_space_stops.
Qed.

Lemma trim_fixed s :
  stops_class is_space (chars s) ->
  stops_class is_space (rev (chars s)) ->
  trim s = s.
Proof.
  intros Hhead Hlast. unfold trim.
  rewrite (drop_space_fixed _ Hhead), (drop_space_fixed _ Hlast), rev_involutive.
  apply text_chars.
Qed.

Lemma trim_trim s : trim (trim s) = trim s.
Proof. destruct (trim_stops s). now apply trim_fixed. Qed.

(** ** Quoted tokens *)

Lemma get_after : forall a c b,
  String.get (String.length a) (a ++ String c b) = Some c.
Proof. induction a as [|x a IH]; intros c b; [reflexivity|apply IH]. Qed.

Lemma string_length_app : forall a b,
  String.length (a ++ b) = (String.length a + String.length b)%nat.
Proof.
  induction a as [|x a IH]; intros b; [reflexivity|].
  cbn [String.append String.length Nat.add]. now rewrite IH.
Qed.

Lemma substring_prefix : forall a b,
  String.substring 0 (String.length a) (a ++ b) = a.
Proof.
  induction a as [|x a IH]; intros b.
  - destruct b; reflexivity.
  - cbn [String.length String.append String.substring]. now rewrite IH.
Qed.

Lemma quoted_token (quote : ascii) (inner : string) :
  is_space quote = false ->
  let token := String quote (inner ++ String quote EmptyString) in
  trim token = token
  /\ is_empty token = false
  /\ char_at token 0 = Some quote
  /\ char_at token (String.length token - 1) = Some quote
  /\ slice_1_m1 token = inner.
Proof.
  intros Hquote token. split; [|split; [reflexivity|split; [reflexivity|]]].
  - apply trim_fixed; unfold token, chars.
    + cbn [list_ascii_of_string stops_class]. exact Hquote.
    + cbn [list_ascii_of_string rev].
      change (list_ascii_of_string (inner ++ String quote EmptyString))
        with (chars (inner ++ String quote EmptyString)).
      rewrite chars_app, rev_app_distr. cbn [chars list_ascii_of_string rev app].
      exact Hquote.
  - assert (Hlen : String.length token = S (S (String.length inner))).
    { unfold token. cbn [String.length]. rewrite string_length_app.
      cbn [String.length]. lia. }
    split.
    + rewrite Hlen. unfold char_at, token.
      replace (S (S (String.length inner)) - 1)%nat
        with (S (String.length inner)) by lia.
      cbn [String.get]. apply get_after.
    + unfold slice_1_m1. rewrite Hlen. unfold token.
      replace (S (S (String.length inner)) - 2)%nat
        with (String.length inner) by lia.
      cbn [String.substring]. apply substring_prefix.
Qed.

(** X10.  [evaluateToken] (src/main.js, lines 1653-1684): a token
    between two double quotes or two single quotes stands for the text
    between them, whatever that text is and whatever the replacements
    are, so a name inside a quoted argument is not replaced; between two
    backticks the names of the replacements are replaced in it. *)
Theorem evaluateToken_quoted (quote : ascii) (inner : string)
    (replacements : Replacements) :
  quote = dquote_char \/ quote = "'"%char ->
  evaluateToken (String quote (inner ++ String quote EmptyString)) replacements
  = Some inner
  /\ evaluateToken (String "`" (inner ++ "`")) replacements
     = Some (replaceIdentifiers inner replacements).
Proof.
  intros Hquote. split.
  - assert (Hspace : is_space quote = false)
      by (destruct Hquote as [-> | ->]; reflexivity).
    destruct (quoted_token quote inner Hspace)
      as (Htrim & Hempty & Hfirst & Hlast & Hslice).
    unfold evaluateToken. cbv zeta. rewrite Htrim, Hempty, Hfirst, Hlast, Hslice.
    destruct Hquote as [-> | ->]; reflexivity.
  - destruct (quoted_token "`" inner eq_refl)
      as (Htrim & Hempty & Hfirst & Hlast & Hslice).
    unfold evaluateToken. cbv zeta. rewrite Htrim, Hempty, Hfirst, Hlast, Hslice.
    reflexivity.
Qed.

Lemma evaluateToken_quoted_witness :
  evaluateToken "'i + 1'" [("i", "3")] = Some "i + 1"
  /\ evaluateToken "`i + 1`" [("i", "3")] = Some "3 + 1".
Proof.
  destruct (evaluateToken_quoted "'" "i + 1" [("i", "3")] (or_intror eq_refl))
    as [Hplain Htemplate].
  split; [exact Hplain|exact Htemplate].
Defined.

(** ** The arguments of a call *)

Lemma push_arg_clean (P := fun arg => is_empty arg = false /\ trim arg = arg)
    args current :
  Forall P args -> Forall P (push_arg args current).
Proof.
  intros Hargs. unfold push_arg.
  destruct (is_empty (trim current)) eqn:Hempty; [exact Hargs|].
  apply Forall_app. split; [exact Hargs|].
  constructor; [|constructor]. split; [exact Hempty|apply trim_trim].
Qed.

Lemma split_step_clean (P := fun arg => is_empty arg = false /\ trim arg = arg)
    value i st :
  Forall P (sp_args st) -> Forall P (sp_args (split_step value i st)).
Proof.
  intros Hargs. unfold split_step.
  destruct (char_at value i) as [char|]; [|exact Hargs].
  destruct (sp_quote st) as [quote|].
  - destruct (Ascii.eqb char quote && _); exact Hargs.
  - destruct (is_quote_char char); [exact Hargs|].
    destruct (Ascii.eqb char "("); [exact Hargs|].
    destruct (Ascii.eqb char ")"); [exact Hargs|].
    destruct (Ascii.eqb char "," && _); [|exact Hargs].
    cbn [sp_args]. apply push_arg_clean. exact Hargs.
Qed.

Lemma split_loop_clean (P := fun arg => is_empty arg = false /\ trim arg = arg)
    value : forall n i st,
  Forall P (sp_args st) -> Forall P (sp_args (split_loop n value i st)).
Proof.
  induction n as [|n IH]; intros i st Hargs; [exact Hargs|].
  cbn [split_loop]. apply IH. apply split_step_clean. exact Hargs.
Qed.

(** X11.  [splitArguments] (src/main.js, lines 1607-1651): whatever the
    text between the parentheses, no argument it returns is empty and
    none starts or ends with white space: each is its own trimmed
    text. *)
Theorem splitArguments_clean (value : string) :
  Forall (fun arg => is_empty arg = false /\ trim arg = arg)
         (splitArguments value).
Proof.
  unfold splitArguments. cbv zeta. apply push_arg_clean.
  apply split_loop_clean. constructor.
Qed.

Lemma append_assoc : forall a b c : string, ((a ++ b) ++ c = a ++ (b ++ c))%string.
Proof.
  induction a as [|x a IH]; intros b c; [reflexivity|].
  cbn [String.append]. now rewrite IH.
Qed.

Lemma append_empty : forall a : string, (a ++ EmptyString)%string = a.
Proof. induction a as [|x a IH]; [reflexivity|cbn; now rewrite IH]. Qed.

(** Outside a comma at depth 0, a turn of the scanner appends the
    character and pushes no argument. *)
Lemma split_step_appends value i st char :
  char_at value i = Some char ->
  Ascii.eqb char "," = false ->
  sp_args (split_step value i st) = sp_args st
  /\ sp_current (split_step value i st) = push_char (sp_current st) char.
Proof.
  intros Hchar Hcomma. unfold split_step. rewrite Hchar, Hcomma.
  destruct (sp_quote st) as [quote|].
  - destruct (Ascii.eqb char quote && _); split; reflexivity.
  - destruct (is_quote_char char); [split; reflexivity|].
    destruct (Ascii.eqb char "("); [split; reflexivity|].
    destruct (Ascii.eqb char ")"); split; reflexivity.
Qed.

Lemma split_loop_appends : forall rest scanned st,
  occurs "," rest = false ->
  sp_current st = scanned ->
  let final :=
    split_loop (String.length rest) (scanned ++ rest) (String.length scanned) st in
  sp_args final = sp_args st /\ sp_current final = (scanned ++ rest)%string.
Proof.
  induction rest as [|char rest IH]; intros scanned st Hnone Hcurrent final.
  - unfold final. cbn [String.length split_loop]. rewrite append_empty.
    split; [reflexivity|exact Hcurrent].
  - unfold occurs, chars in Hnone. cbn [list_ascii_of_string existsb] in Hnone.
    apply orb_false_elim in Hnone as [Hchar Hnone].
    rewrite Ascii.eqb_sym in Hchar.
    destruct (split_step_appends (scanned ++ String char rest)
                (String.length scanned) st char (get_after _ _ _) Hchar)
      as [Hargs Hpushed].
    unfold final. cbn [String.length split_loop].
    specialize (IH (scanned ++ String char EmptyString)%string
                  (split_step (scanned ++ String char rest)
                     (String.length scanned) st)
                  Hnone).
    rewrite string_length_app, append_assoc in IH.
    cbn [String.length String.append] in IH.
    replace (String.length scanned + 1)%nat with (S (String.length scanned))
      in IH by lia.
    destruct IH as [Hargs' Hcurrent'].
    + rewrite Hpushed, Hcurrent. reflexivity.
    + split; [now rewrite Hargs'|exact Hcurrent'].
Qed.

(** X12.  [splitArguments] (src/main.js, lines 1607-1651): the comma is
    the only separator.  A text that holds no comma is one argument, its
    trimmed text, whatever quotes and parentheses it holds, balanced or
    not; and no argument when it holds white space only. *)
Theorem splitArguments_without_comma (value : string) :
  occurs "," value = false ->
  splitArguments value
  = if is_empty (trim value) then [] else [trim value].
Proof.
  intros Hnone.
  destruct (split_loop_appends value EmptyString split_init Hnone eq_refl)
    as [Hargs Hcurrent].
  cbn [String.append String.length] in Hargs, Hcurrent.
  unfold splitArguments. cbv zeta. rewrite Hargs, Hcurrent.
  unfold push_arg. cbn [sp_args split_init app]. reflexivity.
Qed.

Lemma splitArguments_without_comma_witness :
  splitArguments " f(a) + 'b "
  = if is_empty (trim " f(a) + 'b ") then [] else [trim " f(a) + 'b "].
Proof. apply splitArguments_without_comma. reflexivity. Defined.

(** ** Escaped tokens *)

Lemma chars_length : forall s, List.length (chars s) = String.length s.
Proof.
  induction s as [|c s IH]; [reflexivity|].
  unfold chars in *. cbn [list_ascii_of_string List.length String.length].
  now rewrite IH.
Qed.

(** Where a search finds its match: some characters further on. *)
Lemma regex_search_before r : forall rest before m,
  regex_search r before rest = Some m ->
  exists n, (n <= List.length rest)%nat
            /\ m_before m = (rev (firstn n rest) ++ before)%list.
Proof.
  induction rest as [|c rest IH]; intros before m Hsearch;
    cbn [regex_search] in Hsearch.
  - destruct (rmatch r _ Some); [|discriminate].
    injection Hsearch as <-. exists 0%nat. split; [lia|reflexivity].
  - destruct (rmatch r _ Some).
    + injection Hsearch as <-. exists 0%nat. split; [cbn; lia|reflexivity].
    + destruct (IH _ _ Hsearch) as (n & Hn & Hbefore).
      exists (S n). split; [cbn; lia|].
      rewrite Hbefore. cbn [firstn rev]. now rewrite <- app_assoc.
Qed.

(** A character the pattern cannot start at is copied. *)
Lemma replace_from_skip r replacement fuel c rest before :
  rmatch r (mkState before (c :: rest) []) Some = None ->
  replace_from (S fuel) true r replacement before (c :: rest)
  = c :: replace_from (S fuel) true r replacement (c :: before) rest.
Proof.
  intros Hhere. cbn [replace_from regex_search]. rewrite Hhere.
  destruct (regex_search r (c :: before) rest) as [m|] eqn:Hsearch;
    [|reflexivity].
  destruct (regex_search_before _ _ _ _ Hsearch) as (n & Hn & Hbefore).
  rewrite Hbefore, !length_app, length_rev. cbn [List.length].
  replace (List.length (firstn n rest) + S (List.length before)
           - List.length before)%nat
    with (S (List.length (firstn n rest))) by lia.
  replace (List.length (firstn n rest) + S (List.length before)
           - S (List.length before))%nat
    with (List.length (firstn n rest)) by lia.
  cbn [firstn].
  destruct (m_matched m) as [|x matched]; [destruct (m_after m)|]; reflexivity.
Qed.

Lemma escape_from : forall rest before fuel,
  (List.length rest < fuel)%nat ->
  replace_from fuel true (RClass is_regexp_special) (chars "\$&") before rest
  = escape_chars rest.
Proof.
  induction rest as [|c rest IH]; intros before fuel Hfuel;
    (destruct fuel as [|fuel]; [cbn [List.length] in Hfuel; lia|]).
  - reflexivity.
  - cbn [List.length] in Hfuel. unfold escape_chars. cbn [flat_map].
    destruct (is_regexp_special c) eqn:Hc.
    + cbn [replace_from regex_search rmatch ms_rest]. rewrite Hc.
      unfold advance. cbn [ms_rest ms_caps ms_before m_before m_matched m_after
                           List.length].
      replace (S (List.length rest) - List.length rest)%nat with 1%nat by lia.
      rewrite Nat.sub_diag. cbn [firstn app rev].
      change (get_substitution [c] (rev before) rest (chars "\$&"))
        with ["\"%char; c].
      cbn [app]. do 2 f_equal. apply IH. lia.
    + rewrite replace_from_skip by (cbn [rmatch ms_rest]; now rewrite Hc).
      cbn [app]. f_equal. apply IH. lia.
Qed.

(** X13.  [escapeRegExp] (src/main.js, lines 1695-1697): the escaped
    text is the text with a backslash put before each of the characters
    that have a meaning in a pattern, and nothing else changed; so the
    pattern built from the escaped text of a token matches the token
    character by character. *)
Theorem escapeRegExp_escapes (value : string) :
  escapeRegExp value = text (escape_chars (chars value))
  /\ pattern_of_escaped (chars (escapeRegExp value)) = re_lit value.
Proof.
  assert (Hescaped : escapeRegExp value = text (escape_chars (chars value))).
  { unfold escapeRegExp, str_replace. f_equal. apply escape_from.
    rewrite chars_length. lia. }
  split; [exact Hescaped|].
  rewrite Hescaped, chars_text. clear Hescaped.
  unfold re_lit, re_seq, escape_chars.
  induction (chars value) as [|c l IH]; [reflexivity|].
  cbn [flat_map map fold_right].
  destruct (is_regexp_special c) eqn:Hc.
  - cbn [app pattern_of_escaped]. rewrite Ascii.eqb_refl, IH. reflexivity.
  - cbn [app pattern_of_escaped].
    assert (Hplain : Ascii.eqb c "\" = false).
    { destruct (Ascii.eqb c "\") eqn:Hback; [|reflexivity].
      apply Ascii.eqb_eq in Hback. subst c. discriminate Hc. }
    rewrite Hplain, IH. reflexivity.
Qed.

(** ** Sanitised spans *)

Lemma replace_fn_from_skip r f fuel c rest before :
  rmatch r (mkState before (c :: rest) []) Some = None ->
  replace_fn_from (S fuel) r f before (c :: rest)
  = c :: replace_fn_from (S fuel) r f (c :: before) rest.
Proof.
  intros Hhere. cbn [replace_fn_from regex_search]. rewrite Hhere.
  destruct (regex_search r (c :: before) rest) as [m|] eqn:Hsearch;
    [|reflexivity].
  destruct (regex_search_before _ _ _ _ Hsearch) as (n & Hn & Hbefore).
  rewrite Hbefore, !length_app, length_rev. cbn [List.length].
  replace (List.length (firstn n rest) + S (List.length before)
           - List.length before)%nat
    with (S (List.length (firstn n rest))) by lia.
  replace (List.length (firstn n rest) + S (List.length before)
           - S (List.length before))%nat
    with (List.length (firstn n rest)) by lia.
  cbn [firstn].
  destruct (m_matched m) as [|x matched]; [destruct (m_after m)|]; reflexivity.
Qed.

(** A text splits into its longest prefix in a class and what follows. *)
Lemma class_run_split (p : ascii -> bool) : forall l,
  exists run tail,
    l = (run ++ tail)%list /\ forallb p run = true /\ stops_class p tail.
Proof.
  induction l as [|c l (run & tail & -> & Hrun & Hstop)].
  - exists [], []. repeat split.
  - destruct (p c) eqn:Hc.
    + exists (c :: run), tail. cbn [forallb]. rewrite Hc. repeat split; assumption.
    + exists [], (c :: run ++ tail)%list. repeat split. exact Hc.
Qed.

(** At a white space character the pattern takes the whole run. *)
Lemma replace_fn_from_run f fuel c run tail before :
  is_space c = true ->
  forallb is_space run = true ->
  stops_class is_space tail ->
  replace_fn_from (S fuel) space_run_regex f before (c :: run ++ tail)
  = (f (c :: run)
     ++ replace_fn_from fuel space_run_regex f (rev (c :: run) ++ before) tail)%list.
Proof.
  intros Hc Hrun Hstop.
  assert (Hhere : rmatch space_run_regex
                    (mkState before (c :: run ++ tail) []) Some
                  = Some (mkState (rev run ++ c :: before) tail [])).
  { unfold space_run_regex, re_plus. rewrite rmatch_seq.
    cbn [rmatch ms_rest]. rewrite Hc. unfold advance.
    cbn [ms_before ms_caps ms_rest].
    apply (star_class_run is_space _ (rmatch_class_matcher is_space));
      (assumption || reflexivity || lia). }
  cbn [replace_fn_from regex_search]. rewrite Hhere.
  cbn [m_before m_matched m_after ms_rest]. rewrite Nat.sub_diag.
  cbn [List.length]. rewrite length_app.
  replace (S (List.length run + List.length tail) - List.length tail)%nat
    with (S (List.length run)) by lia.
  cbn [firstn app].
  assert (Htaken : firstn (List.length run) (run ++ tail) = run).
  { rewrite firstn_app, Nat.sub_diag, firstn_all. cbn [firstn].
    apply app_nil_r. }
  rewrite Htaken. reflexivity.
Qed.

Lemma squash_run_clean matched :
  existsb (Ascii.eqb newline_char) (squash_run matched) = false.
Proof.
  unfold squash_run.
  destruct (existsb (Ascii.eqb newline_char) matched) eqn:Hfound;
    [reflexivity|exact Hfound].
Qed.

Lemma sanitise_from : forall n rest before fuel,
  (List.length rest <= n)%nat ->
  (List.length rest < fuel)%nat ->
  let cleaned := replace_fn_from fuel space_run_regex squash_run before rest in
  existsb (Ascii.eqb newline_char) cleaned = false
  /\ (existsb (Ascii.eqb newline_char) rest = false -> cleaned = rest)
  /\ (List.length cleaned <= List.length rest)%nat.
Proof.
  induction n as [|n IH]; intros rest before fuel Hn Hfuel;
    (destruct fuel as [|fuel]; [lia|]).
  - destruct rest; [|cbn [List.length] in Hn; lia]. cbn. repeat split. lia.
  - destruct rest as [|c rest]; [cbn; repeat split; lia|].
    cbn [List.length] in Hn, Hfuel.
    destruct (is_space c) eqn:Hc.
    + destruct (class_run_split is_space rest)
        as (run & tail & -> & Hrun & Hstop).
      rewrite length_app in Hn, Hfuel.
      cbv zeta. rewrite (replace_fn_from_run _ _ _ _ _ _ Hc Hrun Hstop).
      destruct (IH tail (rev (c :: run) ++ before)%list fuel
                  ltac:(lia) ltac:(lia)) as (Hclean & Hsame & Hshort).
      cbv zeta in Hclean, Hsame, Hshort.
      split; [|split].
      * rewrite existsb_app, squash_run_clean, Hclean. reflexivity.
      * intros Hnone.
        change (c :: run ++ tail)%list with ((c :: run) ++ tail)%list in Hnone.
        rewrite existsb_app in Hnone.
        apply orb_false_elim in Hnone as [Hrun' Htail].
        unfold squash_run at 1. rewrite Hrun', (Hsame Htail). reflexivity.
      * rewrite length_app. cbn [List.length]. rewrite length_app.
        assert (Hsquash : (List.length (squash_run (c :: run))
                           <= S (List.length run))%nat).
        { unfold squash_run.
          destruct (existsb (Ascii.eqb newline_char) (c :: run));
            cbn [List.length]; lia. }
        lia.
    + cbv zeta. rewrite replace_fn_from_skip.
      * destruct (IH rest (c :: before) (S fuel) ltac:(lia) ltac:(lia))
          as (Hclean & Hsame & Hshort).
        cbv zeta in Hclean, Hsame, Hshort.
        assert (Hplain : Ascii.eqb newline_char c = false).
        { destruct (Ascii.eqb newline_char c) eqn:Hnl; [|reflexivity].
          apply Ascii.eqb_eq in Hnl. subst c. discriminate Hc. }
        split; [|split].
        -- cbn [existsb]. rewrite Hplain, Hclean. reflexivity.
        -- cbn [existsb]. rewrite Hplain. cbn [orb]. intros Hnone.
           now rewrite (Hsame Hnone).
        -- cbn [List.length]. lia.
      * unfold space_run_regex, re_plus. rewrite rmatch_seq.
        cbn [rmatch ms_rest]. now rewrite Hc.
Qed.

(** X15.  [sanitiseSpan] (src/main.js, lines 1128-1134): the text a span
    is left with after an edit holds no line feed, whatever was typed or
    pasted; it is never longer than the text that was there; and a text
    without a line feed is left as it is, its other white space
    included. *)
Theorem sanitiseSpan_single_line (content : string) :
  occurs newline_char (sanitiseSpan content) = false
  /\ (String.length (sanitiseSpan content) <= String.length content)%nat
  /\ (occurs newline_char content = false -> sanitiseSpan content = content).
Proof.
  destruct (sanitise_from (List.length (chars content)) (chars content) []
              (S (String.length content)) (le_n _)
              ltac:(rewrite chars_length; lia))
    as (Hclean & Hsame & Hshort).
  cbv zeta in Hclean, Hsame, Hshort.
  unfold occurs, sanitiseSpan. rewrite chars_text.
  split; [exact Hclean|]. split.
  - rewrite (chars_length content) in Hshort.
    rewrite <- (chars_length (text _)), chars_text. exact Hshort.
  - intros Hnone. rewrite (Hsame Hnone). apply text_chars.
Qed.

Lemma sanitiseSpan_single_line_witness :
  sanitiseSpan "i  <=	5" = "i  <=	5".
Proof.
  apply (proj2 (proj2 (sanitiseSpan_single_line "i  <=	5"))). reflexivity.
Defined.
(** ** Well-formed loops are read *)


















(** ** Array literals are read *)

(** A greedy run gives back what it took until what follows succeeds:
    when no longer way exists, it ends at the last place where the
    continuation succeeds. *)
Section GreedyRun.

Variable p : ascii -> bool.
Variable m : matcher.
Hypothesis m_takes_class : class_matcher p m.
Variable K : mstate -> option mstate.
Variable caps : list (nat * list ascii).



End GreedyRun.























